(** * concordia/utils/concurrency.py: scoped thread pool and parallel map

    A shallow embedding of [executor] and [run_parallel] together with a
    logical-time model of the part of [concurrent.futures] they call
    ([ThreadPoolExecutor.__init__], [submit], [map], [Future.result],
    [Future.cancel], [shutdown]).

    Python exceptions are values of [PyExc]; a computation that may raise
    while mutating the pool is a function [Pool -> outcome A * Pool]: the
    mutations made before an exception survive it, as in Python. *)

From Stdlib Require Import String.
From Stdlib Require Import List ZArith Arith Lia Bool.
Import ListNotations.
Local Open Scope string_scope.
Local Open Scope nat_scope.
Local Open Scope list_scope.

Set Implicit Arguments.

(* ------------------------------------------------------------------ *)
(** ** Exceptions and outcomes *)

(** Exception classes.  The built-in ones and [OtherError] do not derive
    from [StopIteration] (except [StopIteration] itself) and their
    instances have the default truth value, [True].  [UserError] is a
    class defined by the caller: it may derive from [StopIteration], and
    its instances may define their truth value to be [False]. *)
Inductive ExcType : Type :=
  | ValueError
  | TimeoutError
  | RuntimeError
  | CancelledError
  | KeyboardInterrupt
  | OverflowError
  | StopIteration
  | OtherError (name : string)
  | UserError (name : string) (stop_iteration truthy : bool).

Record PyExc : Type := mkExc { exc_type : ExcType; exc_msg : string }.

(** [isinstance(e, StopIteration)]. *)
Definition is_StopIteration (e : PyExc) : bool :=
  match exc_type e with
  | StopIteration => true
  | UserError _ stop_iteration _ => stop_iteration
  | _ => false
  end.

(** [bool(e)]. *)
Definition exc_bool (e : PyExc) : bool :=
  match exc_type e with
  | UserError _ _ truthy => truthy
  | _ => true
  end.

(** What leaves a generator when [e] is raised in its body: a
    [StopIteration] is replaced by a [RuntimeError] (PEP 479). *)
Definition generator_raised (e : PyExc) : PyExc :=
  if is_StopIteration e
  then mkExc RuntimeError "generator raised StopIteration"
  else e.

Inductive outcome (A : Type) : Type :=
  | Return (a : A)
  | Raise (e : PyExc).
Arguments Return {A} a.
Arguments Raise {A} e.

Definition returns {A} (o : outcome A) : Prop := exists a, o = Return a.
Definition raises {A} (o : outcome A) : Prop := exists e, o = Raise e.

(* ------------------------------------------------------------------ *)
(** ** Stateful computations that may raise *)

Definition M (S A : Type) : Type := S -> outcome A * S.

Definition ret {S A} (a : A) : M S A := fun s => (Return a, s).
Definition raise {S A} (e : PyExc) : M S A := fun s => (Raise e, s).

Definition bind {S A B} (m : M S A) (k : A -> M S B) : M S B :=
  fun s =>
    match m s with
    | (Return a, s') => k a s'
    | (Raise e, s') => (Raise e, s')
    end.

Declare Scope py_scope.
Delimit Scope py_scope with py.
Notation "x <- c1 ;; c2" := (bind c1 (fun x => c2))
  (at level 61, c1 at next level, right associativity) : py_scope.
Notation "c1 ;; c2" := (bind c1 (fun _ => c2))
  (at level 61, right associativity) : py_scope.
Local Open Scope py_scope.

(** [try: body / except BaseException: handler / else: orelse]. *)
Definition try_except_else {S A B}
    (body : M S A) (handler : PyExc -> M S B) (orelse : A -> M S B) : M S B :=
  fun s =>
    match body s with
    | (Raise e, s') => handler e s'
    | (Return a, s') => orelse a s'
    end.

(** [try: body / finally: fin]: [fin] always runs; if it raises, its
    exception replaces whatever [body] produced. *)
Definition try_finally {S A B} (body : M S A) (fin : M S B) : M S A :=
  fun s =>
    match body s with
    | (o, s') =>
        match fin s' with
        | (Return _, s'') => (o, s'')
        | (Raise e, s'') => (Raise e, s'')
        end
    end.

Fixpoint mapM {S A B} (f : A -> M S B) (l : list A) : M S (list B) :=
  match l with
  | [] => ret []
  | a :: l' => b <- f a ;; bs <- mapM f l' ;; ret (b :: bs)
  end.

(* ------------------------------------------------------------------ *)
(** ** Builtins: [zip] over star-args and [min] *)

Section Builtins.
Context {V : Type}.

(** Prepends the elements of [s] to the rows, stopping at the shorter. *)
Fixpoint zip_cons (s : list V) (rows : list (list V)) : list (list V) :=
  match s, rows with
  | x :: s', r :: rows' => (x :: r) :: zip_cons s' rows'
  | _, _ => []
  end.

(** [zip] applied to the unpacked [args]: the tuples of corresponding
    elements, as many as the shortest argument has; with no argument
    at all it is empty. *)
Fixpoint zip (args : list (list V)) : list (list V) :=
  match args with
  | [] => []
  | [s] => map (fun x => [x]) s
  | s :: rest => zip_cons s (zip rest)
  end.

End Builtins.

(** [min(iterable)] on integers: [ValueError] on an empty iterable. *)
Definition py_min (l : list Z) : outcome Z :=
match l with
| [] => Raise (mkExc ValueError "min() iterable argument is empty")
| x :: l' => Return (fold_left Z.min l' x)
end.

(* ------------------------------------------------------------------ *)
(** ** The pool interface [executor] relies on *)

(** The keyword arguments forwarded to [ThreadPoolExecutor]. *)
Record Kwargs : Type := mkKwargs { kw_max_workers : option Z }.

(** What [executor] calls on [futures.ThreadPoolExecutor]: the constructor
  and [shutdown(wait, cancel_futures)].  Either may raise. *)
Class PoolLibrary (Pool : Type) : Type := {
  ThreadPoolExecutor : Kwargs -> outcome Pool;
  shutdown : forall (wait cancel_futures : bool), M Pool unit
}.

Section Executor.
Context {Pool : Type} {lib : PoolLibrary Pool} {A : Type}.

(** [executor] called with [kwargs] around a [with] block [body].  The second
    component is the pool as the scope leaves it, [None] when the
    constructor raised and no pool was created. *)
Definition executor (kwargs : Kwargs) (body : M Pool A)
    : outcome A * option Pool :=
  match ThreadPoolExecutor kwargs with
  | Raise e => (Raise e, None)
  | Return thread_executor =>
      let (r, p) :=
        try_except_else body
          (fun e => shutdown false true ;; raise e)
          (fun a => shutdown true false ;; ret a)
          thread_executor in
      (r, Some p)
  end.

End Executor.

(* ------------------------------------------------------------------ *)
(** ** A logical-time model of [concurrent.futures.ThreadPoolExecutor]

    Time is counted in ticks of a clock that starts when the pool is
    created.  The pool has [_max_workers] worker threads that take work
    items from a FIFO queue.  Everything that the scheduler, the
    interpreter and the body of [fn] decide about timing is an oracle,
    [Timing]: how long each unit of work runs, how long each call of
    [submit] keeps the caller, how long a queued unit waits before a
    worker actually starts it, and how long the caller is kept off the
    processor before it looks at a future.  A statement proved for every
    [Timing] holds whatever the interleaving is. *)

Record Timing : Type := mkTiming {
  unit_cost : nat -> nat;   (* ticks the k-th submitted unit runs for *)
  submit_lag : nat -> nat;  (* ticks the k-th call of submit takes *)
  pickup_lag : nat -> nat;  (* ticks before a worker starts the k-th unit *)
  result_lag : nat -> nat   (* ticks the caller loses before it looks at
                               the k-th future *)
}.

(** A timeout in seconds as Python passes it around: a float.  [Finite t]
    is [t] ticks (a negative value or NaN behaves as [Finite 0]: the wait
    does not block); [Infinite] is [float('inf')]. *)
Inductive Seconds : Type :=
  | Finite (ticks : nat)
  | Infinite.

(** [timeout + time.monotonic()] and [end_time - time.monotonic()]. *)
Definition deadline (now : nat) (timeout : Seconds) : Seconds :=
  match timeout with
  | Finite t => Finite (t + now)
  | Infinite => Infinite
  end.

Definition remaining (now : nat) (end_time : Seconds) : Seconds :=
  match end_time with
  | Finite e => Finite (e - now)
  | Infinite => Infinite
  end.

(** What the model takes from the Python runtime: the object [None] among
    the values of type [R], and [threading.TIMEOUT_MAX] in ticks. *)
Class Python (R : Type) : Type := {
  py_None : R;
  TIMEOUT_MAX : nat
}.

Section ThreadPool.
Variables V R : Type.
Context {py : Python R}.

(** [os.process_cpu_count()], with [0] standing for [None]. *)
Variable cpu_count : nat.

(** The timing oracle. *)
Variable cost : Timing.

(** A submitted work item with its future.  [fut_outcome] is what the
    call [fn( *fut_args )] does; it becomes visible from tick
    [fut_finish] on.  [fut_lag] is how long the caller is kept before it
    looks at this future. *)
Record Future : Type := mkFuture {
  fut_args : list V;
  fut_outcome : outcome R;
  fut_start : nat;
  fut_cost : nat;
  fut_lag : nat;
  fut_cancelled : bool
}.

Definition fut_finish (f : Future) : nat := fut_start f + fut_cost f.

Inductive FutureState : Type := PENDING | RUNNING | CANCELLED | FINISHED.

Definition future_state (clock : nat) (f : Future) : FutureState :=
  if fut_cancelled f then CANCELLED
  else if clock <? fut_start f then PENDING
  else if clock <? fut_finish f then RUNNING
  else FINISHED.

Record thread_pool : Type := mkPool {
  _max_workers : Z;
  _threads : list nat;        (* per worker: the tick it becomes idle *)
  _work : list Future;        (* work items in submission order *)
  _shutdown : bool;
  clock : nat;                (* the calling thread's time *)
  shutdown_calls : list (bool * bool)  (* (wait, cancel_futures) per call *)
}.

Definition with_clock (t : nat) (p : thread_pool) : thread_pool :=
  mkPool (_max_workers p) (_threads p) (_work p) (_shutdown p) t
         (shutdown_calls p).

Definition with_work (ts : list nat) (w : list Future) (p : thread_pool)
    : thread_pool :=
  mkPool (_max_workers p) ts w (_shutdown p) (clock p) (shutdown_calls p).

(** [ThreadPoolExecutor.__init__]: the default worker count is
    [min(32, (os.process_cpu_count() or 1) + 4)]; a count that is not
    positive is rejected with [ValueError]. *)
Definition thread_pool_init (kwargs : Kwargs) : outcome thread_pool :=
  let max_workers :=
    match kw_max_workers kwargs with
    | None => Z.min 32 (Z.of_nat (if cpu_count =? 0 then 1 else cpu_count) + 4)
    | Some n => n
    end in
  if (max_workers <=? 0)%Z
  then Raise (mkExc ValueError "max_workers must be greater than 0")
  else Return (mkPool max_workers (repeat 0 (Z.to_nat max_workers)) []
                      false 0 []).

(** The earliest tick at which some worker is idle. *)
Definition earliest (ts : list nat) : nat :=
  match ts with
  | [] => 0
  | t :: ts' => fold_left Nat.min ts' t
  end.

(** The worker idle at [t] is busy until [t']. *)
Fixpoint occupy (t t' : nat) (ts : list nat) : list nat :=
  match ts with
  | [] => []
  | u :: ts' => if u =? t then t' :: ts' else u :: occupy t t' ts'
  end.

(** [Executor.submit(fn, *args)]: queues the call and returns the handle
    of its future (its position in the queue).  The call keeps the caller
    for [submit_lag] ticks; the unit is started [pickup_lag] ticks after
    it is queued and a worker is free, and until then it can still be
    cancelled. *)
Definition submit (fn : list V -> outcome R) (args : list V)
    : M thread_pool nat :=
  fun p =>
    if _shutdown p
    then (Raise (mkExc RuntimeError
                   "cannot schedule new futures after shutdown"), p)
    else
      let k := length (_work p) in
      let start :=
        Nat.max (clock p) (earliest (_threads p)) + pickup_lag cost k in
      (Return k,
       with_clock (clock p + submit_lag cost k)
         (with_work
            (occupy (earliest (_threads p)) (start + unit_cost cost k)
                    (_threads p))
            (_work p ++ [mkFuture args (fn args) start (unit_cost cost k)
                                  (result_lag cost k) false])
            p)).

Definition cancel_pending (now : nat) (f : Future) : Future :=
  if negb (fut_cancelled f) && (now <? fut_start f)
  then mkFuture (fut_args f) (fut_outcome f) (fut_start f) (fut_cost f)
                (fut_lag f) true
  else f.

Fixpoint update {A} (k : nat) (g : A -> A) (l : list A) : list A :=
  match l, k with
  | [], _ => []
  | a :: l', 0 => g a :: l'
  | a :: l', S k' => a :: update k' g l'
  end.

(** [Future.cancel()]: a future that has not started is cancelled; one
    that is running or finished cannot be. *)
Definition Future_cancel (fut : nat) : M thread_pool bool :=
  fun p =>
    match nth_error (_work p) fut with
    | None => (Return false, p)
    | Some f =>
        match future_state (clock p) f with
        | PENDING =>
            (Return true,
             with_work (_threads p)
                       (update fut (cancel_pending (clock p)) (_work p)) p)
        | CANCELLED => (Return true, p)
        | _ => (Return false, p)
        end
    end.

(** [Future.__get_result()]: [if self._exception: raise self._exception]
    and otherwise [return self._result]; the test is on the truth value
    of the exception object, so an exception whose truth value is [False]
    is not raised and [self._result], which was never set and is [None],
    is returned. *)
Definition get_result (o : outcome R) : outcome R :=
  match o with
  | Return r => Return r
  | Raise e => if exc_bool e then Raise e else Return py_None
  end.

(** [Future.result(timeout)]: a finished future gives its result at once,
    whatever the timeout; otherwise the caller waits on the future's
    condition, for at most [timeout] ticks ([None]: as long as it takes).
    The wait itself raises [OverflowError] for a timeout that is infinite
    or above [threading.TIMEOUT_MAX]. *)
Definition Future_result (fut : nat) (timeout : option Seconds)
    : M thread_pool R :=
  fun p =>
    match nth_error (_work p) fut with
    | None => (Raise (mkExc RuntimeError "unknown future"), p)
    | Some f =>
        if fut_cancelled f then (Raise (mkExc CancelledError ""), p)
        else if fut_finish f <=? clock p then (get_result (fut_outcome f), p)
        else
          match timeout with
          | None =>
              (get_result (fut_outcome f), with_clock (fut_finish f) p)
          | Some Infinite =>
              (Raise (mkExc OverflowError "timeout value is too large"), p)
          | Some (Finite t) =>
              if TIMEOUT_MAX <? t
              then (Raise (mkExc OverflowError "timeout value is too large"),
                    p)
              else if fut_finish f <=? clock p + t
              then (get_result (fut_outcome f), with_clock (fut_finish f) p)
              else (Raise (mkExc TimeoutError ""), with_clock (clock p + t) p)
          end
    end.

(** [concurrent.futures._base._result_or_cancel]. *)
Definition _result_or_cancel (fut : nat) (timeout : option Seconds)
    : M thread_pool R :=
  try_finally (Future_result fut timeout) (Future_cancel fut).

Definition monotonic : M thread_pool nat := fun p => (Return (clock p), p).

(** The caller is kept off the processor before it gets to look at the
    future [fut]. *)
Definition preempted (fut : nat) : M thread_pool unit :=
  fun p =>
    match nth_error (_work p) fut with
    | None => (Return tt, p)
    | Some f => (Return tt, with_clock (clock p + fut_lag f) p)
    end.

(** The generator [result_iterator()] of [Executor.map], driven to its
    end by [list(...)]: the results in submission order; when waiting for
    one raises, the futures not yet consumed are cancelled, the last
    submitted first, and the exception leaves the generator, a
    [StopIteration] as [RuntimeError]. *)
Fixpoint result_iterator (fs : list nat) (end_time : option Seconds)
    : M thread_pool (list R) :=
  match fs with
  | [] => ret []
  | fut :: fs' =>
      try_except_else
        (preempted fut ;;
         now <- monotonic ;;
         _result_or_cancel fut (option_map (remaining now) end_time))
        (fun e => mapM Future_cancel (rev fs') ;; raise (generator_raised e))
        (fun r => rs <- result_iterator fs' end_time ;; ret (r :: rs))
  end.

(** [Executor.map(fn, *iterables, timeout=timeout)]: fixes the deadline,
    then submits one call per zipped tuple, and returns the lazy iterator
    over the results, here the handles with the deadline. *)
Definition Executor_map (fn : list V -> outcome R) (iterables : list (list V))
    (timeout : option Seconds) : M thread_pool (list nat * option Seconds) :=
  now <- monotonic ;;
  fs <- mapM (submit fn) (zip iterables) ;;
  ret (fs, option_map (deadline now) timeout).

(** [ThreadPoolExecutor.shutdown(wait, cancel_futures)]: no new work is
    accepted; with [cancel_futures] the work items still queued are
    cancelled; with [wait] the caller blocks until every worker has
    drained the queue and exited. *)
Definition thread_pool_shutdown (wait cancel_futures : bool)
    : M thread_pool unit :=
  fun p =>
    let work :=
      if cancel_futures then map (cancel_pending (clock p)) (_work p)
      else _work p in
    let joined :=
      fold_left Nat.max
        (map fut_finish (filter (fun f => negb (fut_cancelled f)) work))
        (clock p) in
    (Return tt,
     mkPool (_max_workers p) (_threads p) work true
            (if wait then joined else clock p)
            (shutdown_calls p ++ [(wait, cancel_futures)])).

Definition thread_pool_library : PoolLibrary thread_pool := {|
  ThreadPoolExecutor := thread_pool_init;
  shutdown := thread_pool_shutdown
|}.

(** What is fixed about a work item when it is queued; cancelling never
    changes it. *)
Definition submitted_as (f : Future) : list V * outcome R * nat * nat :=
  (fut_args f, fut_outcome f, fut_start f, fut_cost f).

(** [m] neither resizes the pool nor adds, drops or reschedules work. *)
Definition keeps_queue {A} (m : M thread_pool A) : Prop :=
  forall p,
    _max_workers (snd (m p)) = _max_workers p /\
    map submitted_as (_work (snd (m p))) = map submitted_as (_work p).

(** [f] is the fresh future of the call of [fn] on [tup]. *)
Definition queued (fn : list V -> outcome R) (tup : list V) (f : Future)
    : Prop :=
  fut_args f = tup /\ fut_outcome f = fn tup /\ fut_cancelled f = false.

(** [run_parallel(fn, *args, timeout=timeout, max_workers=max_workers)].
    [timeout] is [None] when unset.  Besides what the call returns or
    raises, the pool it leaves behind is given, [None] when no pool was
    ever created. *)
Definition run_parallel (fn : list V -> outcome R) (args : list (list V))
    (timeout : option Seconds) (max_workers : option Z)
    : outcome (list R) * option thread_pool :=
  match
    match max_workers with
    | None => py_min (map (fun arg => Z.of_nat (length arg)) args)
    | Some n => Return n
    end
  with
  | Raise e => (Raise e, None)
  | Return max_workers =>
      executor (lib := thread_pool_library) (mkKwargs (Some max_workers))
        (results <- Executor_map fn args timeout ;;
         result_iterator (fst results) (snd results))
  end.

End ThreadPool.

(* ------------------------------------------------------------------ *)
(** ** Reference semantics to compare [run_parallel] with *)

Section Reference.
Variables V R : Type.
Context {py : Python R}.

(** The list comprehension of the docstring of [run_parallel],
    [[fn( *t ) for t in tuples]], evaluated from left to right: the first
    call that raises ends it with its exception. *)
Fixpoint list_comprehension (fn : list V -> outcome R)
    (tuples : list (list V)) : outcome (list R) :=
  match tuples with
  | [] => Return []
  | t :: tuples' =>
      match fn t with
      | Raise e => Raise e
      | Return r =>
          match list_comprehension fn tuples' with
          | Return rs => Return (r :: rs)
          | Raise e => Raise e
          end
      end
  end.

(** Gathering what the calls did, in order, the way a future and a
    generator hand it on: a call that raised an exception with truth
    value [True] ends the gathering with that exception, a
    [StopIteration] as [RuntimeError]; a call that raised an exception
    with truth value [False] counts as having returned [None]. *)
Fixpoint gather (outcomes : list (outcome R)) : outcome (list R) :=
  match outcomes with
  | [] => Return []
  | o :: outcomes' =>
      match get_result o with
      | Raise e => Raise (generator_raised e)
      | Return r =>
          match gather outcomes' with
          | Return rs => Return (r :: rs)
          | Raise e => Raise e
          end
      end
  end.

(** An exception object of the ordinary kind: truth value [True] and not
    a [StopIteration]. *)
Definition ordinary (e : PyExc) : Prop :=
  exc_bool e = true /\ is_StopIteration e = false.


(** The result of a live future is at hand when the caller looks at
    tick [c], or arrives within the time the caller may wait. *)
Definition at_hand (E : option Seconds) (c : nat) (f : Future V R) : Prop :=
  fut_finish f <= c \/
  match E with
  | None => True
  | Some (Finite e) => fut_finish f <= e /\ e - c <= TIMEOUT_MAX
  | Some Infinite => False
  end.

End Reference.

(* ------------------------------------------------------------------ *)
(** ** Concrete functions, timings and pools used in the examples *)

(** The runtime of the examples: results are [None] or a number. *)
#[global] Instance python_runtime : Python (option nat) := {|
  py_None := None;
  TIMEOUT_MAX := 1000
|}.

(** [fn] summing its arguments; never raises. *)
Definition fn_sum (t : list nat) : outcome (option nat) :=
  Return (Some (fold_left Nat.add t 0)).

(** [fn] raising [ValueError("boom")] when its first argument is [0]. *)
Definition fn_boom (t : list nat) : outcome (option nat) :=
  match t with
  | 0 :: _ => Raise (mkExc ValueError "boom")
  | _ => Return (Some (fold_left Nat.add t 0))
  end.


(** [fn] raising, when its first argument is [0], an exception object
    whose truth value is [False]. *)
Definition fn_falsy (t : list nat) : outcome (option nat) :=
  match t with
  | 0 :: _ => Raise (mkExc (UserError "Quiet" false false) "")
  | _ => Return (Some (fold_left Nat.add t 0))
  end.

(** Later units finish first; nothing else takes time. *)
Definition cost_decreasing : Timing :=
  mkTiming (fun k => 5 - k) (fun _ => 0) (fun _ => 0) (fun _ => 0).

(** The first unit finishes after one tick, the others after a hundred. *)
Definition cost_first_fast : Timing :=
  mkTiming (fun k => match k with 0 => 1 | _ => 100 end)
           (fun _ => 0) (fun _ => 0) (fun _ => 0).

(** Each call of [submit] takes ten ticks; each unit runs for five. *)
Definition cost_slow_submit : Timing :=
  mkTiming (fun _ => 5) (fun _ => 10) (fun _ => 0) (fun _ => 0).

(** A worker needs two ticks to pick a unit up; each unit runs for one. *)
Definition cost_slow_pickup : Timing :=
  mkTiming (fun _ => 1) (fun _ => 0) (fun _ => 2) (fun _ => 0).

(** A [with] block that queues two calls and then fails. *)
Definition block_failing : M (thread_pool nat (option nat)) nat :=
  _ <- submit cost_first_fast fn_sum [1; 2] ;;
  _ <- submit cost_first_fast fn_sum [3; 4] ;;
  raise (mkExc ValueError "boom").


(** The pools that the runs of the examples leave behind. *)
Definition pool_after_success : thread_pool nat (option nat) :=
  mkPool 3 [5; 4; 3]
    [mkFuture [1; 10] (Return (Some 11)) 0 5 0 false;
     mkFuture [2; 20] (Return (Some 22)) 0 4 0 false;
     mkFuture [3; 30] (Return (Some 33)) 0 3 0 false]
    true 5 [(true, false)].

Definition pool_after_failure : thread_pool nat (option nat) :=
  mkPool 2 [1; 100]
    [mkFuture [0] (Raise (mkExc ValueError "boom")) 0 1 0 false;
     mkFuture [2] (Return (Some 2)) 0 100 0 false]
    true 1 [(false, true)].

Definition pool_after_timeout : thread_pool nat (option nat) :=
  mkPool 2 [1; 100]
    [mkFuture [1] (Return (Some 1)) 0 1 0 false;
     mkFuture [2] (Return (Some 2)) 0 100 0 false]
    true 3 [(false, true)].

Definition pool_after_quiet : thread_pool nat (option nat) :=
  mkPool 3 [5; 4; 3]
    [mkFuture [1] (Return (Some 1)) 0 5 0 false;
     mkFuture [0] (Raise (mkExc (UserError "Quiet" false false) "")) 0 4 0
              false;
     mkFuture [3] (Return (Some 3)) 0 3 0 false]
    true 5 [(true, false)].

Definition pool_after_block_failing : thread_pool nat (option nat) :=
  mkPool 1 [101]
    [mkFuture [1; 2] (Return (Some 3)) 0 1 0 false;
     mkFuture [3; 4] (Return (Some 7)) 1 100 0 true]
    true 0 [(false, true)].
(* ------------------------------------------------------------------ *)
(** ** Facts about the builtins *)

Section BuiltinFacts.
Context {V : Type}.
Implicit Types (s : list V) (args rows : list (list V)).

Lemma length_zip_cons s rows :
  length (zip_cons s rows) = Nat.min (length s) (length rows).
Proof.
  revert rows; induction s as [|x s IH]; intros [|r rows]; simpl; auto.
Qed.

Lemma nth_error_zip_cons s rows i :
  nth_error (zip_cons s rows) i =
  match nth_error s i, nth_error rows i with
  | Some x, Some r => Some (x :: r)
  | _, _ => None
  end.
Proof.
  revert rows i; induction s as [|x s IH]; intros [|r rows] [|i]; simpl; auto.
  destruct (nth_error s i); reflexivity.
Qed.

Lemma fold_left_Zmin_min (l : list Z) (a b : Z) :
  fold_left Z.min l (Z.min a b) = Z.min a (fold_left Z.min l b).
Proof.
  revert a b; induction l as [|x l IH]; intros a b; simpl; [reflexivity|].
  rewrite <- IH. f_equal. lia.
Qed.

(** The default worker count [min(len(arg) for arg in args)] is the
    number of zipped tuples. *)
Lemma py_min_lengths args :
  args <> [] ->
  py_min (map (fun arg => Z.of_nat (length arg)) args) =
  Return (Z.of_nat (length (zip args))).
Proof.
  induction args as [|s rest IH]; [congruence|]. intros _.
  destruct rest as [|s2 rest].
  - simpl. now rewrite length_map.
  - assert (Hne : s2 :: rest <> []) by congruence.
    specialize (IH Hne). change (zip (s :: s2 :: rest))
      with (zip_cons s (zip (s2 :: rest))).
    rewrite length_zip_cons, Nat2Z.inj_min.
    simpl in IH |- *. injection IH as IH. rewrite <- IH.
    now rewrite fold_left_Zmin_min.
Qed.

Lemma length_zip_le args s : In s args -> length (zip args) <= length s.
Proof.
  induction args as [|s1 rest IH]; [contradiction|]. intros Hin.
  destruct rest as [|s2 rest].
  - destruct Hin as [<-|[]]. simpl. now rewrite length_map.
  - change (zip (s1 :: s2 :: rest)) with (zip_cons s1 (zip (s2 :: rest))).
    rewrite length_zip_cons. destruct Hin as [<-|Hin]; [lia|].
    specialize (IH Hin). lia.
Qed.

Lemma length_zip_attained args :
  args <> [] -> exists s, In s args /\ length s = length (zip args).
Proof.
  induction args as [|s1 rest IH]; [congruence|]. intros _.
  destruct rest as [|s2 rest].
  - exists s1. split; [now left|]. simpl. now rewrite length_map.
  - assert (Hne : s2 :: rest <> []) by congruence.
    destruct (IH Hne) as (s & Hin & Hlen).
    change (zip (s1 :: s2 :: rest)) with (zip_cons s1 (zip (s2 :: rest))).
    rewrite length_zip_cons.
    destruct (Nat.le_ge_cases (length s1) (length (zip (s2 :: rest)))).
    + exists s1. split; [now left|]. lia.
    + exists s. split; [now right|]. lia.
Qed.

Lemma length_zip_equal args L :
  args <> [] -> Forall (fun s => length s = L) args -> length (zip args) = L.
Proof.
  intros Hne Hall. destruct (length_zip_attained Hne) as (s & Hin & <-).
  rewrite Forall_forall in Hall. auto.
Qed.

(** The [i]-th zipped tuple holds the [i]-th element of every argument. *)
Lemma nth_error_zip args i d :
  i < length (zip args) ->
  nth_error (zip args) i = Some (map (fun s => nth i s d) args).
Proof.
  revert i; induction args as [|s1 rest IH]; intros i Hi;
    [simpl in Hi; lia|].
  destruct rest as [|s2 rest].
  - simpl in *. rewrite length_map in Hi.
    rewrite nth_error_map, (nth_error_nth' s1 d Hi). reflexivity.
  - change (zip (s1 :: s2 :: rest)) with (zip_cons s1 (zip (s2 :: rest))) in *.
    rewrite length_zip_cons in Hi. rewrite nth_error_zip_cons.
    rewrite IH by lia. rewrite (nth_error_nth' s1 d) by lia. reflexivity.
Qed.

Lemma In_zip args tup :
  In tup (zip args) ->
  exists i, i < length (zip args) /\
            forall d, tup = map (fun s => nth i s d) args.
Proof.
  intros Hin. apply In_nth_error in Hin as [i Hi].
  assert (Hlt : i < length (zip args)).
  { apply nth_error_Some. congruence. }
  exists i. split; [exact Hlt|]. intros d.
  rewrite (nth_error_zip args d Hlt) in Hi. congruence.
Qed.

End BuiltinFacts.

(* ------------------------------------------------------------------ *)
(** ** The scope guard, for any pool library *)

Section ExecutorFacts.
Context {Pool : Type} (lib : PoolLibrary Pool) {A : Type}.
Implicit Types (kwargs : Kwargs) (body : M Pool A).

Lemma executor_not_created kwargs body e :
  ThreadPoolExecutor kwargs = Raise e ->
  executor kwargs body = (Raise e, None).
Proof. intros H. unfold executor. now rewrite H. Qed.

Lemma executor_normal_exit kwargs body p0 a p1 :
  ThreadPoolExecutor kwargs = Return p0 ->
  body p0 = (Return a, p1) ->
  executor kwargs body =
  match shutdown true false p1 with
  | (Return _, p2) => (Return a, Some p2)
  | (Raise e, p2) => (Raise e, Some p2)
  end.
Proof.
  intros H0 H1. unfold executor, try_except_else, bind, ret.
  rewrite H0, H1. destruct (shutdown true false p1) as [[u|e] p2]; reflexivity.
Qed.

Lemma executor_error_exit kwargs body p0 e p1 :
  ThreadPoolExecutor kwargs = Return p0 ->
  body p0 = (Raise e, p1) ->
  executor kwargs body =
  match shutdown false true p1 with
  | (Return _, p2) => (Raise e, Some p2)
  | (Raise e2, p2) => (Raise e2, Some p2)
  end.
Proof.
  intros H0 H1. unfold executor, try_except_else, bind, raise.
  rewrite H0, H1. destruct (shutdown false true p1) as [[u|e2] p2]; reflexivity.
Qed.

End ExecutorFacts.

(* ------------------------------------------------------------------ *)
(** ** Facts about the thread pool model *)

Section ThreadPoolFacts.
Context {V R : Type} {py : Python R}.
Variable cpu_count : nat.
Variable cost : Timing.
Implicit Types (p : thread_pool V R) (f : Future V R)
  (fn : list V -> outcome R).

Lemma with_clock_same p : with_clock (clock p) p = p.
Proof. now destruct p. Qed.

Lemma fold_left_max_ge (l : list nat) (c : nat) :
  c <= fold_left Nat.max l c /\ forall x, In x l -> x <= fold_left Nat.max l c.
Proof.
  revert c; induction l as [|y l IH]; intros c; simpl.
  - split; [lia | contradiction].
  - destruct (IH (Nat.max c y)) as [Hc Hin]. split; [lia|].
    intros x [<-|Hx]; [lia | auto].
Qed.

Lemma submitted_as_cancel_pending now f :
  submitted_as (cancel_pending now f) = submitted_as f.
Proof.
  unfold cancel_pending.
  destruct (negb (fut_cancelled f) && (now <? fut_start f)); reflexivity.
Qed.

Lemma map_submitted_as_update k now (w : list (Future V R)) :
  map (@submitted_as V R) (update k (cancel_pending now) w) =
  map (@submitted_as V R) w.
Proof.
  revert k; induction w as [|f w IH]; intros [|k]; simpl; auto.
  - now rewrite submitted_as_cancel_pending.
  - now rewrite IH.
Qed.

Lemma map_submitted_as_cancel now (w : list (Future V R)) :
  map (@submitted_as V R) (map (cancel_pending now) w) =
  map (@submitted_as V R) w.
Proof.
  rewrite map_map. apply map_ext. intros f. apply submitted_as_cancel_pending.
Qed.

(** *** Computations that leave the queue as it is *)

Lemma keeps_ret {A} (a : A) : keeps_queue (ret (S:=thread_pool V R) a).
Proof. intros p. now split. Qed.

Lemma keeps_raise {A} e : keeps_queue (raise (S:=thread_pool V R) (A:=A) e).
Proof. intros p. now split. Qed.

Lemma keeps_try_except_else {A B} (m : M (thread_pool V R) A)
    (h : PyExc -> M (thread_pool V R) B) (k : A -> M (thread_pool V R) B) :
  keeps_queue m -> (forall e, keeps_queue (h e)) ->
  (forall a, keeps_queue (k a)) ->
  keeps_queue (try_except_else m h k).
Proof.
  intros Hm Hh Hk p. unfold try_except_else.
  specialize (Hm p). destruct (m p) as [[a|e] p1]; simpl in Hm.
  - destruct (Hk a p1) as [H1 H2]. destruct Hm as [H3 H4]. split; congruence.
  - destruct (Hh e p1) as [H1 H2]. destruct Hm as [H3 H4]. split; congruence.
Qed.

Lemma keeps_bind {A B} (m : M (thread_pool V R) A)
    (k : A -> M (thread_pool V R) B) :
  keeps_queue m -> (forall a, keeps_queue (k a)) -> keeps_queue (bind m k).
Proof.
  intros Hm Hk p.
  exact (@keeps_try_except_else _ _ m (fun e => raise e) k Hm
           (fun e => keeps_raise e) Hk p).
Qed.

Lemma keeps_try_finally {A B} (m : M (thread_pool V R) A)
    (fin : M (thread_pool V R) B) :
  keeps_queue m -> keeps_queue fin -> keeps_queue (try_finally m fin).
Proof.
  intros Hm Hf p. unfold try_finally.
  specialize (Hm p). destruct (m p) as [o p1]; simpl in Hm.
  specialize (Hf p1). destruct (fin p1) as [[b|e] p2]; simpl in *;
    destruct Hm, Hf; split; congruence.
Qed.

Lemma keeps_mapM {A B} (g : A -> M (thread_pool V R) B) (l : list A) :
  (forall a, keeps_queue (g a)) -> keeps_queue (mapM g l).
Proof.
  intros Hg. induction l as [|a l IH]; simpl.
  - apply keeps_ret.
  - apply keeps_bind; [apply Hg|]. intros b.
    apply keeps_bind; [exact IH|]. intros bs. apply keeps_ret.
Qed.

Lemma keeps_monotonic : keeps_queue (@monotonic V R).
Proof. intros p. now split. Qed.

Lemma keeps_preempted k : keeps_queue (@preempted V R k).
Proof.
  intros p. unfold preempted.
  destruct (nth_error (_work p) k); now split.
Qed.

Lemma keeps_Future_cancel k : keeps_queue (@Future_cancel V R k).
Proof.
  intros p. unfold Future_cancel.
  destruct (nth_error (_work p) k) as [f|]; [|now split].
  destruct (future_state (clock p) f); simpl; split; auto.
  apply map_submitted_as_update.
Qed.

Lemma keeps_Future_result k timeout :
  keeps_queue (Future_result (V:=V) k timeout).
Proof.
  intros p. unfold Future_result.
  destruct (nth_error (_work p) k) as [f|]; [|now split].
  destruct (fut_cancelled f); [now split|].
  destruct (fut_finish f <=? clock p); [now split|].
  destruct timeout as [[t|]|]; [|now split|now split].
  destruct (TIMEOUT_MAX <? t); [now split|].
  destruct (fut_finish f <=? clock p + t); now split.
Qed.

Lemma keeps_shutdown wait cancel_futures :
  keeps_queue (@thread_pool_shutdown V R wait cancel_futures).
Proof.
  intros p. unfold thread_pool_shutdown; simpl. split; [reflexivity|].
  destruct cancel_futures; [apply map_submitted_as_cancel | reflexivity].
Qed.

Lemma keeps_result_iterator fs end_time :
  keeps_queue (result_iterator (V:=V) fs end_time).
Proof.
  induction fs as [|fut fs IH]; simpl.
  - apply keeps_ret.
  - apply keeps_try_except_else.
    + apply keeps_bind; [apply keeps_preempted|]. intros _.
      apply keeps_bind; [apply keeps_monotonic|]. intros now.
      apply keeps_try_finally;
        [apply keeps_Future_result | apply keeps_Future_cancel].
    + intros e. apply keeps_bind; [|intros; apply keeps_raise].
      apply keeps_mapM. apply keeps_Future_cancel.
    + intros r. apply keeps_bind; [exact IH|]. intros rs. apply keeps_ret.
Qed.

(** *** Submitting *)

Lemma submit_all fn tups : forall p,
  _shutdown p = false ->
  exists p' futs,
    mapM (submit cost fn) tups p =
      (Return (seq (length (_work p)) (length tups)), p') /\
    _work p' = _work p ++ futs /\
    Forall2 (queued fn) tups futs /\
    _shutdown p' = false /\ clock p <= clock p' /\
    _max_workers p' = _max_workers p /\
    shutdown_calls p' = shutdown_calls p.
Proof.
  induction tups as [|tup tups IH]; intros p Hs.
  - exists p, []. simpl. rewrite app_nil_r. repeat split; auto.
  - destruct (submit cost fn tup p) as [o p1] eqn:H1.
    unfold submit in H1. rewrite Hs in H1. injection H1 as <- Hp1.
    assert (Hs1 : _shutdown p1 = false) by (subst p1; exact Hs).
    assert (Hw1 : exists f, _work p1 = _work p ++ [f] /\ queued fn tup f).
    { subst p1. simpl. eexists. split; [reflexivity|]. now repeat split. }
    destruct Hw1 as (f & Hw1 & Hqf).
    assert (Hc1 : clock p <= clock p1) by (subst p1; simpl; lia).
    assert (Hm1 : _max_workers p1 = _max_workers p) by (subst p1; reflexivity).
    assert (Hl1 : shutdown_calls p1 = shutdown_calls p)
      by (subst p1; reflexivity).
    assert (Hsub : submit cost fn tup p = (Return (length (_work p)), p1)).
    { unfold submit. rewrite Hs. now subst p1. }
    clear Hp1.
    destruct (IH p1 Hs1) as (p' & futs & Hrun & Hw & Hq & Hs' & Hc & Hm & Hl).
    exists p', (f :: futs).
    simpl mapM. unfold bind at 1. rewrite Hsub.
    unfold bind at 1. rewrite Hrun. unfold ret.
    replace (length (_work p1)) with (S (length (_work p)))
      by (rewrite Hw1, length_app; simpl; lia).
    repeat split; auto; try congruence; try lia.
    + rewrite Hw, Hw1. now rewrite <- app_assoc.
Qed.

(** *** Cancelling *)

Lemma Future_cancel_returns k p :
  exists b p', Future_cancel k p = (Return b, p').
Proof.
  unfold Future_cancel. destruct (nth_error (_work p) k) as [f|]; eauto.
  destruct (future_state (clock p) f); eauto.
Qed.

Lemma cancel_all_returns ks : forall p,
  exists bs p', mapM (@Future_cancel V R) ks p = (Return bs, p').
Proof.
  induction ks as [|k ks IH]; intros p; simpl.
  - unfold ret. eauto.
  - unfold bind at 1. destruct (Future_cancel_returns k p) as (b & p1 & ->).
    unfold bind at 1. destruct (IH p1) as (bs & p2 & ->). unfold ret. eauto.
Qed.

(** A future that has started is left alone by [Future.cancel()]. *)
Lemma Future_cancel_started k p f :
  nth_error (_work p) k = Some f -> fut_start f <= clock p ->
  exists b, Future_cancel k p = (Return b, p).
Proof.
  intros Hk Hst. unfold Future_cancel, future_state. rewrite Hk.
  destruct (fut_cancelled f); [eauto|].
  destruct (Nat.ltb_spec (clock p) (fut_start f)); [lia|].
  destruct (clock p <? fut_finish f); eauto.
Qed.

Lemma Future_cancel_frame k p :
  clock (snd (Future_cancel k p)) = clock p /\
  shutdown_calls (snd (Future_cancel k p)) = shutdown_calls p /\
  _shutdown (snd (Future_cancel k p)) = _shutdown p.
Proof.
  unfold Future_cancel. destruct (nth_error (_work p) k) as [f|]; [|now auto].
  destruct (future_state (clock p) f); simpl; auto.
Qed.

Lemma cancel_all_frame ks : forall p,
  clock (snd (mapM (@Future_cancel V R) ks p)) = clock p /\
  shutdown_calls (snd (mapM (@Future_cancel V R) ks p)) = shutdown_calls p /\
  _shutdown (snd (mapM (@Future_cancel V R) ks p)) = _shutdown p.
Proof.
  induction ks as [|k ks IH]; intros p; simpl; [now auto|].
  unfold bind at 1 3 5.
  pose proof (Future_cancel_frame k p) as F.
  destruct (Future_cancel_returns k p) as (b & p1 & Hc). rewrite Hc in *.
  simpl in F. unfold bind.
  pose proof (IH p1) as F1.
  destruct (cancel_all_returns ks p1) as (bs & p2 & Hc2). rewrite Hc2 in *.
  simpl in *. unfold ret. simpl. intuition congruence.
Qed.

End ThreadPoolFacts.

(* ------------------------------------------------------------------ *)
(** ** Waiting for results *)

Section Collecting.
Context {V R : Type} {py : Python R}.
Implicit Types (p q : thread_pool V R) (f : Future V R).

Local Abbreviation step k E :=
  (preempted (V:=V) (R:=R) k ;;
   now <- monotonic (V:=V) (R:=R) ;;
   _result_or_cancel k (option_map (remaining now) E)).

Lemma fold_left_max_le (l : list nat) (c b : nat) :
  c <= b -> (forall x, In x l -> x <= b) -> fold_left Nat.max l c <= b.
Proof.
  revert c; induction l as [|y l IH]; intros c Hc Hl; simpl; [exact Hc|].
  apply IH.
  - pose proof (Hl y (or_introl eq_refl)). lia.
  - intros x Hx. apply Hl. now right.
Qed.

Lemma Future_result_frame k timeout p :
  shutdown_calls (snd (Future_result k timeout p)) = shutdown_calls p /\
  _shutdown (snd (Future_result k timeout p)) = _shutdown p /\
  clock p <= clock (snd (Future_result k timeout p)).
Proof.
  unfold Future_result. destruct (nth_error (_work p) k) as [f|].
  2:{ simpl. repeat split; auto. }
  destruct (fut_cancelled f).
  { simpl. repeat split; auto. }
  destruct (Nat.leb_spec (fut_finish f) (clock p)).
  { simpl. repeat split; auto. }
  destruct timeout as [[t|]|].
  - destruct (TIMEOUT_MAX <? t); [simpl; repeat split; auto|].
    destruct (Nat.leb_spec (fut_finish f) (clock p + t)); simpl;
      repeat split; auto; lia.
  - simpl. repeat split; auto.
  - simpl. repeat split; auto; lia.
Qed.

Lemma preempted_frame k p :
  fst (preempted k p) = Return tt /\
  _work (snd (preempted k p)) = _work p /\
  shutdown_calls (snd (preempted k p)) = shutdown_calls p /\
  _shutdown (snd (preempted k p)) = _shutdown p /\
  clock p <= clock (snd (preempted k p)).
Proof.
  unfold preempted. destruct (nth_error (_work p) k); simpl;
    repeat split; auto; lia.
Qed.

(** Waiting for one result never touches the shutdown state and never
    turns the clock back. *)
Lemma step_frame k E p :
  shutdown_calls (snd (step k E p)) = shutdown_calls p /\
  _shutdown (snd (step k E p)) = _shutdown p /\
  clock p <= clock (snd (step k E p)).
Proof.
  assert (H : exists o q',
            step k E p = (o, q') /\
            shutdown_calls q' = shutdown_calls p /\
            _shutdown q' = _shutdown p /\ clock p <= clock q').
  { unfold bind at 1.
    pose proof (preempted_frame k p) as (P0 & _ & P1 & P2 & P3).
    destruct (preempted k p) as [o p0]. simpl in P0, P1, P2, P3. subst o.
    unfold bind, monotonic, _result_or_cancel, try_finally.
    pose proof (Future_result_frame k
                  (option_map (remaining (clock p0)) E) p0) as (F1 & F2 & F3).
    destruct (Future_result k (option_map (remaining (clock p0)) E) p0)
      as [o q]. simpl in F1, F2, F3.
    pose proof (Future_cancel_frame k q) as (G1 & G2 & G3).
    destruct (Future_cancel_returns k q) as (b & q' & Hc).
    rewrite Hc in G1, G2, G3 |- *. simpl in G1, G2, G3.
    exists o, q'. repeat split; try congruence; lia. }
  destruct H as (o & q' & -> & H1 & H2 & H3). simpl. auto.
Qed.

Lemma result_iterator_frame fs E : forall p,
  shutdown_calls (snd (result_iterator fs E p)) = shutdown_calls p /\
  _shutdown (snd (result_iterator fs E p)) = _shutdown p /\
  clock p <= clock (snd (result_iterator fs E p)).
Proof.
  induction fs as [|k fs IH]; intros p.
  - simpl. repeat split; auto.
  - simpl. unfold try_except_else.
    pose proof (step_frame k E p) as (F1 & F2 & F3).
    destruct (step k E p) as [[r|e] p1]; simpl in F1, F2, F3.
    + unfold bind. pose proof (IH p1) as (G1 & G2 & G3).
      destruct (result_iterator fs E p1) as [[rs|e] p2]; simpl in *;
        repeat split; try congruence; lia.
    + unfold bind. pose proof (cancel_all_frame (rev fs) p1) as (G1 & G2 & G3).
      destruct (cancel_all_returns (rev fs) p1) as (bs & p2 & Hc).
      rewrite Hc in *. simpl in *. unfold raise. simpl.
      repeat split; try congruence; lia.
Qed.

(** Looking at a live future whose result is at hand gives what
    [__get_result] makes of the call, and moves the clock to the later of
    the moment of looking and the completion of the call. *)
Lemma step_available k E p f :
  nth_error (_work p) k = Some f -> fut_cancelled f = false ->
  at_hand E (clock p + fut_lag f) f ->
  step k E p =
  (get_result (fut_outcome f),
   with_clock (Nat.max (clock p + fut_lag f) (fut_finish f)) p).
Proof.
  intros Hk Hc Hav. unfold bind at 1. unfold preempted. rewrite Hk.
  unfold bind, monotonic, _result_or_cancel, try_finally, Future_result.
  simpl _work. simpl clock. rewrite Hk, Hc.
  set (c := clock p + fut_lag f) in *.
  destruct (Nat.leb_spec (fut_finish f) c) as [Hle|Hgt].
  - destruct (@Future_cancel_started V R k (with_clock c p) f Hk) as [b ->].
    { simpl. unfold fut_finish in Hle. lia. }
    rewrite Nat.max_l by exact Hle. reflexivity.
  - assert (Hres :
      match option_map (remaining c) E with
      | None => (get_result (fut_outcome f),
                 with_clock (fut_finish f) (with_clock c p))
      | Some Infinite =>
          (Raise (mkExc OverflowError "timeout value is too large"),
           with_clock c p)
      | Some (Finite t) =>
          if TIMEOUT_MAX <? t
          then (Raise (mkExc OverflowError "timeout value is too large"),
                with_clock c p)
          else if fut_finish f <=? c + t
          then (get_result (fut_outcome f),
                with_clock (fut_finish f) (with_clock c p))
          else (Raise (mkExc TimeoutError ""),
                with_clock (c + t) (with_clock c p))
      end = (get_result (fut_outcome f), with_clock (fut_finish f) p)).
    { destruct Hav as [Hav|Hav]; [lia|].
      destruct E as [[e|]|]; simpl; [|contradiction|reflexivity].
      destruct Hav as [Hfe Hmax].
      destruct (Nat.ltb_spec TIMEOUT_MAX (e - c)); [lia|].
      destruct (Nat.leb_spec (fut_finish f) (c + (e - c)));
        [reflexivity | lia]. }
    rewrite Hres.
    destruct (@Future_cancel_started V R k (with_clock (fut_finish f) p) f)
      as [b ->]; [exact Hk | simpl; unfold fut_finish; lia |].
    rewrite Nat.max_r by lia. reflexivity.
Qed.


(** A wait that returns a value was for a live future that has finished
    by then, and changed nothing but the clock. *)
Lemma step_returns_inv k E p r p1 :
  step k E p = (Return r, p1) ->
  exists f,
    nth_error (_work p) k = Some f /\ fut_cancelled f = false /\
    get_result (fut_outcome f) = Return r /\
    p1 = with_clock (Nat.max (clock p + fut_lag f) (fut_finish f)) p.
Proof.
  intros H.
  destruct (nth_error (_work p) k) as [f|] eqn:Hk.
  2:{ exfalso. revert H. unfold bind at 1. unfold preempted. rewrite Hk.
      unfold bind, monotonic, _result_or_cancel, try_finally, Future_result,
        Future_cancel.
      rewrite Hk. cbv beta iota. rewrite Hk. discriminate. }
  exists f. split; [reflexivity|].
  revert H. unfold bind at 1. unfold preempted. rewrite Hk.
  unfold bind, monotonic, _result_or_cancel, try_finally, Future_result.
  simpl _work. simpl clock. rewrite Hk.
  set (c := clock p + fut_lag f).
  destruct (fut_cancelled f) eqn:Hc.
  { destruct (Future_cancel_returns k (with_clock c p)) as (b & q & ->).
    discriminate. }
  destruct (Nat.leb_spec (fut_finish f) c) as [Hle|Hgt].
  { destruct (@Future_cancel_started V R k (with_clock c p) f Hk) as [b ->].
    { simpl. unfold fut_finish in Hle. lia. }
    intros [= Ho <-]. rewrite Nat.max_l by exact Hle. auto. }
  assert (Hdone : forall q,
    (let (o, s'') := Future_cancel k (with_clock (fut_finish f) q) in
     match o with
     | Return _ => (get_result (fut_outcome f), s'')
     | Raise e => (Raise e, s'')
     end) = (Return r, p1) ->
    _work q = _work p ->
    with_clock (fut_finish f) q = with_clock (fut_finish f) p ->
    false = false /\ get_result (fut_outcome f) = Return r /\
    p1 = with_clock (Nat.max c (fut_finish f)) p).
  { intros q Hq Hwq Heq.
    destruct (@Future_cancel_started V R k (with_clock (fut_finish f) q) f)
      as [b Hb]; [simpl; rewrite Hwq; exact Hk
                 | simpl; unfold fut_finish; lia |].
    rewrite Hb in Hq. injection Hq as Ho <-.
    rewrite Nat.max_r by lia. auto. }
  destruct E as [[e|]|]; simpl option_map; cbv beta iota.
  - destruct (TIMEOUT_MAX <? e - c).
    { destruct (Future_cancel_returns k (with_clock c p)) as (b & q & ->).
      discriminate. }
    destruct (fut_finish f <=? c + (e - c)).
    + intros H. exact (Hdone (with_clock c p) H eq_refl eq_refl).
    + destruct (Future_cancel_returns k
                  (with_clock (c + (e - c)) (with_clock c p)))
        as (b & q & ->). discriminate.
  - destruct (Future_cancel_returns k (with_clock c p)) as (b & q & ->).
    discriminate.
  - intros H. exact (Hdone (with_clock c p) H eq_refl eq_refl).
Qed.

(** When waiting for a future raises, the generator cancels what is
    left and lets the exception through, a [StopIteration] as
    [RuntimeError]. *)
Lemma result_iterator_step_raises k fs end_time p e p1 :
  step k end_time p = (Raise e, p1) ->
  exists p',
    result_iterator (k :: fs) end_time p = (Raise (generator_raised e), p') /\
    clock p' = clock p1.
Proof.
  intros H. simpl. unfold try_except_else. rewrite H.
  unfold bind. pose proof (cancel_all_frame (rev fs) p1) as (G & _).
  destruct (cancel_all_returns (rev fs) p1) as (bs & p2 & Hc). rewrite Hc in *.
  unfold raise. simpl in G. eauto.
Qed.

Lemma result_iterator_step_returns k fs end_time p r p1 :
  step k end_time p = (Return r, p1) ->
  result_iterator (k :: fs) end_time p =
  (rs <- result_iterator fs end_time ;; ret (r :: rs)) p1.
Proof. intros H. simpl. unfold try_except_else. now rewrite H. Qed.

(** When the iterator runs to its end, every future it was given is live
    and finished, and the queue is as it was. *)
Lemma result_iterator_returns fs E : forall p rs p',
  result_iterator fs E p = (Return rs, p') ->
  _work p' = _work p /\
  Forall (fun k => exists f, nth_error (_work p) k = Some f /\
                             fut_cancelled f = false /\
                             fut_finish f <= clock p') fs.
Proof.
  induction fs as [|k fs IH]; intros p rs p' H.
  - simpl in H. injection H as _ <-. split; [reflexivity | constructor].
  - simpl in H. unfold try_except_else in H.
    destruct (step k E p) as [[r|e] p1] eqn:Hstep.
    2:{ exfalso. unfold bind in H.
        destruct (cancel_all_returns (rev fs) p1) as (bs & p2 & Hc).
        rewrite Hc in H. discriminate. }
    apply step_returns_inv in Hstep as (f & Hk & Hc & Ho & ->).
    unfold bind in H.
    destruct (result_iterator fs E
                (with_clock (Nat.max (clock p + fut_lag f) (fut_finish f)) p))
      as [[rs'|e] p2] eqn:Hrec; [|discriminate].
    injection H as _ <-.
    pose proof (result_iterator_frame fs E
                  (with_clock (Nat.max (clock p + fut_lag f) (fut_finish f)) p))
      as (_ & _ & Hmono).
    rewrite Hrec in Hmono. simpl in Hmono.
    apply IH in Hrec as [Hw Hall]. simpl in Hw, Hall.
    split; [exact Hw|]. constructor; [|exact Hall].
    exists f. repeat split; auto. lia.
Qed.

(** When every result is at hand whenever the caller comes to it, the
    iterator gives what gathering the outcomes of the calls gives. *)
Lemma result_iterator_gather futs : forall pre E p,
  _work p = pre ++ futs ->
  Forall (fun f => fut_cancelled f = false) futs ->
  (forall f c, In f futs -> clock p <= c -> at_hand E c f) ->
  fst (result_iterator (seq (length pre) (length futs)) E p) =
  gather (map (@fut_outcome V R) futs).
Proof.
  induction futs as [|f futs IH]; intros pre E p Hw Hall Hav;
    [reflexivity|].
  inversion Hall as [|f' futs' Hc Hrest]; subst.
  assert (Hk : nth_error (_work p) (length pre) = Some f).
  { rewrite Hw, nth_error_app2, Nat.sub_diag by lia. reflexivity. }
  simpl length. simpl seq. simpl map. simpl gather.
  pose proof (@step_available (length pre) E p f Hk Hc
                (Hav f _ (or_introl eq_refl) (Nat.le_add_r _ _))) as Hstep.
  destruct (get_result (fut_outcome f)) as [r|e] eqn:Ho.
  - rewrite (@result_iterator_step_returns _
               (seq (S (length pre)) (length futs)) _ _ _ _ Hstep).
    unfold bind.
    set (p1 := with_clock (Nat.max (clock p + fut_lag f) (fut_finish f)) p)
      in *.
    specialize (IH (pre ++ [f]) E p1).
    rewrite length_app, Nat.add_1_r in IH. simpl length in IH.
    rewrite <- IH.
    + destruct (result_iterator (seq (S (length pre)) (length futs)) E p1)
        as [[rs|e] p2]; reflexivity.
    + simpl. rewrite Hw, <- app_assoc. reflexivity.
    + exact Hrest.
    + intros g c Hg Hle. apply Hav; [now right|]. simpl in Hle. lia.
  - destruct (@result_iterator_step_raises _
                (seq (S (length pre)) (length futs)) _ _ _ _ Hstep)
      as (p' & -> & _). reflexivity.
Qed.


(** The list that the iterator returns holds, in the order of the
    futures, what [Future.result] gives for each. *)
Lemma result_iterator_values futs : forall pre E p rs p',
  _work p = pre ++ futs ->
  result_iterator (seq (length pre) (length futs)) E p = (Return rs, p') ->
  Forall2 (fun f r => get_result (fut_outcome f) = Return r) futs rs.
Proof.
  induction futs as [|f futs IH]; intros pre E p rs p' Hw H.
  - simpl in H. injection H as <- _. constructor.
  - simpl length in H. simpl seq in H. simpl in H.
    unfold try_except_else in H.
    destruct (step (length pre) E p) as [[r|e] p1] eqn:Hstep.
    2:{ exfalso. unfold bind in H.
        destruct (cancel_all_returns
                    (rev (seq (S (length pre)) (length futs))) p1)
          as (bs & p2 & Hc).
        rewrite Hc in H. discriminate. }
    apply step_returns_inv in Hstep as (f0 & Hk & Hc & Ho & ->).
    assert (Hf : f0 = f).
    { rewrite Hw, nth_error_app2, Nat.sub_diag in Hk by lia.
      simpl in Hk. congruence. }
    subst f0. unfold bind in H.
    destruct (result_iterator (seq (S (length pre)) (length futs)) E
                (with_clock (Nat.max (clock p + fut_lag f) (fut_finish f)) p))
      as [[rs'|e] p2] eqn:Hrec; [|discriminate].
    injection H as <- _. constructor; [exact Ho|].
    apply (IH (pre ++ [f]) E
              (with_clock (Nat.max (clock p + fut_lag f) (fut_finish f)) p)
              rs' p2).
    + simpl. rewrite Hw, <- app_assoc. reflexivity.
    + rewrite length_app, Nat.add_1_r. exact Hrec.
Qed.

End Collecting.

(* ------------------------------------------------------------------ *)
(** ** Gathering outcomes *)

Section Gathering.
Context {V R : Type} {py : Python R}.
Implicit Types (fn : list V -> outcome R) (os : list (outcome R)).

Lemma gather_all_return os rs :
  Forall2 (fun o r => o = Return r) os rs -> gather os = Return rs.
Proof.
  induction 1 as [|o r os rs -> _ IH]; [reflexivity|].
  simpl. now rewrite IH.
Qed.



Lemma gather_ordinary fn tups :
  (forall tup e, In tup tups -> fn tup = Raise e -> ordinary e) ->
  gather (map fn tups) = list_comprehension fn tups.
Proof.
  induction tups as [|tup tups IH]; intros Hord; [reflexivity|].
  simpl. destruct (fn tup) as [r|e] eqn:Hfn; simpl.
  - rewrite IH; [reflexivity|]. intros t e Ht. apply Hord. now right.
  - destruct (Hord tup e (or_introl eq_refl) Hfn) as [Hb Hs].
    unfold generator_raised. now rewrite Hb, Hs.
Qed.

Lemma gather_returns os : forall rs,
  gather os = Return rs ->
  Forall2 (fun o r => get_result o = Return r) os rs.
Proof.
  induction os as [|o os IH]; intros rs H; simpl in H.
  - injection H as <-. constructor.
  - destruct (get_result o) as [r|e] eqn:Ho; [|discriminate].
    destruct (gather os) as [rs'|e]; [|discriminate].
    injection H as <-. constructor; auto.
Qed.


Lemma Forall2_nth_error_l {A B} (P : A -> B -> Prop) l l' i a :
  Forall2 P l l' -> nth_error l i = Some a ->
  exists b, nth_error l' i = Some b /\ P a b.
Proof.
  intros H; revert i; induction H as [|x y l l' Hxy _ IH]; intros [|i] Hi;
    simpl in *; try discriminate.
  - injection Hi as <-. eauto.
  - auto.
Qed.

Lemma queued_outcomes fn tups (futs : list (Future V R)) :
  Forall2 (queued fn) tups futs ->
  map (@fut_outcome V R) futs = map fn tups /\
  map (@fut_args V R) futs = tups /\
  Forall (fun f => fut_cancelled f = false) futs.
Proof.
  induction 1 as [|tup f tups futs (Ha & Ho & Hc) _ (IH1 & IH2 & IH3)];
    simpl; repeat split; auto; congruence.
Qed.

End Gathering.

(* ------------------------------------------------------------------ *)
(** ** The ways a call of [run_parallel] can go *)

Section RunParallelFacts.
Context {V R : Type} {py : Python R}.
Variable cpu_count : nat.
Variable cost : Timing.
Implicit Types (p : thread_pool V R) (f : Future V R)
  (fn : list V -> outcome R).

Lemma thread_pool_shutdown_returns wait cancel_futures p :
  fst (thread_pool_shutdown wait cancel_futures p) = Return tt.
Proof. reflexivity. Qed.

Lemma cancel_pending_not_pending now f :
  future_state now (cancel_pending now f) <> PENDING.
Proof.
  unfold cancel_pending, future_state.
  destruct (fut_cancelled f) eqn:Hc; simpl; [rewrite Hc; discriminate|].
  destruct (now <? fut_start f) eqn:Hs; simpl.
  - discriminate.
  - rewrite Hc, Hs. destruct (now <? fut_finish f); discriminate.
Qed.

Lemma cancel_pending_started now f :
  future_state now f <> PENDING -> cancel_pending now f = f.
Proof.
  unfold cancel_pending, future_state.
  destruct (fut_cancelled f); simpl; [reflexivity|].
  destruct (now <? fut_start f); [congruence | reflexivity].
Qed.

Lemma joined_all_finished (w : list (Future V R)) c f :
  In f w ->
  let t := fold_left Nat.max
             (map (@fut_finish V R)
                  (filter (fun f => negb (fut_cancelled f)) w)) c in
  future_state t f = FINISHED \/ future_state t f = CANCELLED.
Proof.
  intros Hin t. unfold future_state.
  destruct (fut_cancelled f) eqn:Hc; [now right | left].
  assert (Hle : fut_finish f <= t).
  { apply fold_left_max_ge. apply in_map. apply filter_In.
    split; [exact Hin | now rewrite Hc]. }
  destruct (Nat.ltb_spec t (fut_start f));
    [unfold fut_finish in Hle; lia|].
  destruct (Nat.ltb_spec t (fut_finish f)); [lia | reflexivity].
Qed.


Lemma run_parallel_default fn args timeout :
  args <> [] ->
  run_parallel cpu_count cost fn args timeout None =
  run_parallel cpu_count cost fn args timeout
               (Some (Z.of_nat (length (zip args)))).
Proof.
  intros Hne. unfold run_parallel. now rewrite (py_min_lengths Hne).
Qed.

Lemma run_parallel_rejected fn args timeout mw :
  (mw <= 0)%Z ->
  run_parallel cpu_count cost fn args timeout (Some mw) =
  (Raise (mkExc ValueError "max_workers must be greater than 0"), None).
Proof.
  intros Hmw. unfold run_parallel. apply executor_not_created.
  simpl. unfold thread_pool_init. simpl.
  destruct (Z.leb_spec mw 0); [reflexivity | lia].
Qed.

(** A call with a worker count that the pool accepts creates the pool,
    queues one call per zipped tuple, collects, and shuts the pool down
    the way the collection ended. *)
Lemma run_parallel_created fn args timeout mw :
  (0 < mw)%Z ->
  exists p1 r p2,
    Forall2 (queued fn) (zip args) (_work p1) /\
    _max_workers p1 = mw /\ shutdown_calls p1 = [] /\
    result_iterator (seq 0 (length (_work p1)))
                    (option_map (deadline 0) timeout) p1 = (r, p2) /\
    run_parallel cpu_count cost fn args timeout (Some mw) =
    (r, Some (snd (match r with
                   | Return _ => thread_pool_shutdown true false p2
                   | Raise _ => thread_pool_shutdown false true p2
                   end))).
Proof.
  intros Hmw.
  pose (p0 := mkPool (V:=V) (R:=R) mw (repeat 0 (Z.to_nat mw)) [] false 0 []).
  assert (Hinit : thread_pool_init V R cpu_count (mkKwargs (Some mw))
                  = Return p0).
  { unfold thread_pool_init. simpl.
    destruct (Z.leb_spec mw 0); [lia | reflexivity]. }
  destruct (@submit_all V R cost fn (zip args) p0 eq_refl)
    as (p1 & futs & Hsub & Hw & Hq & _ & _ & Hm & Hl).
  simpl in Hw, Hm, Hl, Hsub. subst futs.
  destruct (result_iterator (seq 0 (length (_work p1)))
              (option_map (deadline 0) timeout) p1) as [r p2] eqn:Hit.
  exists p1, r, p2. repeat split; auto.
  assert (Hbody :
    (results <- Executor_map cost fn args timeout ;;
     result_iterator (fst results) (snd results)) p0 = (r, p2)).
  { unfold Executor_map, bind at 1 2, monotonic. unfold bind at 1.
    rewrite Hsub. unfold ret. simpl fst. simpl snd.
    rewrite (Forall2_length Hq). exact Hit. }
  unfold run_parallel. destruct r as [rs|e].
  - rewrite (executor_normal_exit (thread_pool_library V R cpu_count)
               _ _ Hinit Hbody). reflexivity.
  - rewrite (executor_error_exit (thread_pool_library V R cpu_count)
               _ _ Hinit Hbody). reflexivity.
Qed.

(** Whenever a call leaves a pool behind, it went through creation,
    submission and collection, and the pool still holds one work item
    per zipped tuple. *)
Lemma run_parallel_inv fn args timeout max_workers r p :
  run_parallel cpu_count cost fn args timeout max_workers = (r, Some p) ->
  exists mw p1 p2,
    (0 < mw)%Z /\
    mw = match max_workers with
         | None => Z.of_nat (length (zip args))
         | Some n => n
         end /\
    Forall2 (queued fn) (zip args) (_work p1) /\
    shutdown_calls p1 = [] /\
    result_iterator (seq 0 (length (_work p1)))
                    (option_map (deadline 0) timeout) p1 = (r, p2) /\
    p = snd (match r with
             | Return _ => thread_pool_shutdown true false p2
             | Raise _ => thread_pool_shutdown false true p2
             end) /\
    _max_workers p = mw /\
    map (@submitted_as V R) (_work p) = map (@submitted_as V R) (_work p1).
Proof.
  intros Hrun.
  assert (Hsome : exists mw,
            run_parallel cpu_count cost fn args timeout (Some mw) = (r, Some p)
            /\ mw = match max_workers with
                    | None => Z.of_nat (length (zip args))
                    | Some n => n
                    end).
  { destruct max_workers as [n|]; [eauto|].
    destruct args as [|s rest]; [discriminate Hrun|].
    rewrite run_parallel_default in Hrun by discriminate. eauto. }
  destruct Hsome as (mw & Hrun' & Hmw).
  destruct (Z.leb_spec mw 0) as [Hle|Hgt].
  { rewrite run_parallel_rejected in Hrun' by exact Hle. discriminate. }
  destruct (@run_parallel_created fn args timeout mw Hgt)
    as (p1 & r' & p2 & Hq & Hm & Hl & Hit & Heq).
  rewrite Heq in Hrun'. injection Hrun' as -> Hp.
  exists mw, p1, p2.
  destruct (keeps_result_iterator (seq 0 (length (_work p1)))
              (option_map (deadline 0) timeout) p1) as [Hk1 Hk2].
  rewrite Hit in Hk1, Hk2. simpl in Hk1, Hk2.
  assert (Hk3 : _max_workers p = _max_workers p2 /\
                map (@submitted_as V R) (_work p) =
                map (@submitted_as V R) (_work p2)).
  { subst p. destruct r; apply keeps_shutdown. }
  destruct Hk3 as [Hk3 Hk4].
  repeat split; auto; congruence.
Qed.

(** Without a timeout, what a call that created its pool returns or
    raises is what gathering the outcomes of [fn] on the zipped tuples
    gives. *)
Lemma run_parallel_gathers fn args max_workers r p :
  run_parallel cpu_count cost fn args None max_workers = (r, Some p) ->
  r = gather (map fn (zip args)).
Proof.
  intros Hrun.
  destruct (run_parallel_inv _ _ _ _ Hrun)
    as (mw & p1 & p2 & _ & _ & Hq & _ & Hit & _).
  destruct (queued_outcomes Hq) as (Ho & _ & Hlive).
  pose proof (@result_iterator_gather V R py (_work p1) [] None p1 eq_refl
                Hlive) as Hg.
  simpl length in Hg. simpl option_map in Hit. rewrite Hit in Hg.
  simpl in Hg. rewrite Hg, Ho; [reflexivity|].
  intros f c _ _. right. exact I.
Qed.

End RunParallelFacts.

(* ------------------------------------------------------------------ *)
(** ** The parallel map *)

Section RunParallelSpec.
Context {V R : Type} {py : Python R}.
Variable cpu_count : nat.
Variable cost : Timing.
Implicit Types (fn : list V -> outcome R) (seqs : list (list V)).

Lemma gather_returns_all fn (tups : list (list V)) :
  (forall tup, In tup tups -> returns (fn tup)) ->
  exists rs,
    Forall2 (fun tup r => fn tup = Return r) tups rs /\
    gather (map fn tups) = Return rs.
Proof.
  induction tups as [|tup tups IH]; intros Hret.
  - exists []. split; [constructor | reflexivity].
  - destruct (Hret tup (or_introl eq_refl)) as [r Hr].
    destruct IH as (rs & H1 & H2); [intros t Ht; apply Hret; now right|].
    exists (r :: rs). split; [constructor; auto|].
    simpl. rewrite Hr. simpl. now rewrite H2.
Qed.

(** C1: when at least one sequence is non-empty, all sequences have the
    same length [L] and [fn] raises on no zipped tuple, the call
    [run_parallel(fn, *seqs)] returns a list of length [L] whose [i]-th
    element is [fn] applied to the [i]-th elements of the sequences, for
    every [i < L]; this holds for every timing [cost] of the units, so the
    order is the input order and never the completion order. *)
Theorem run_parallel_results_in_input_order fn seqs L :
  (exists s, In s seqs /\ s <> []) ->
  Forall (fun s => length s = L) seqs ->
  (forall tup, In tup (zip seqs) -> returns (fn tup)) ->
  exists results,
    fst (run_parallel cpu_count cost fn seqs None None) = Return results /\
    length results = L /\
    forall i d, i < L ->
      exists r, nth_error results i = Some r /\
                fn (map (fun s => nth i s d) seqs) = Return r.
Proof.
  intros (s & Hin & Hs) Hall Hret.
  assert (Hne : seqs <> []) by (intros ->; contradiction).
  pose proof (length_zip_equal Hne Hall) as HL.
  assert (HL1 : 1 <= L).
  { rewrite Forall_forall in Hall. rewrite <- (Hall s Hin).
    destruct s; [congruence | simpl; lia]. }
  rewrite (@run_parallel_default V R py cpu_count cost fn seqs None Hne).
  destruct (@run_parallel_created V R py cpu_count cost fn seqs None
              (Z.of_nat (length (zip seqs))))
    as (p1 & r & p2 & _ & _ & _ & _ & Heq); [lia|].
  pose proof (run_parallel_gathers _ _ _ _ _ Heq) as Hr.
  destruct (gather_returns_all fn (zip seqs) Hret) as (rs & H2 & Hg).
  rewrite Hg in Hr. subst r.
  exists rs. rewrite Heq. split; [reflexivity|].
  split; [rewrite <- (Forall2_length H2); exact HL|].
  intros i d Hi.
  assert (Hi' : i < length (zip seqs)) by lia.
  destruct (Forall2_nth_error_l i H2 (nth_error_zip seqs d Hi'))
    as (r & Hr & Hfn).
  eauto.
Qed.



(** Zip truncation when the shortest sequence is not empty: one result
    and one work item per zipped tuple, as many as the shortest sequence
    has elements; nothing else is ever handed to [fn]. *)
Lemma run_parallel_zip_truncation fn seqs :
  zip seqs <> [] ->
  (forall tup, In tup (zip seqs) -> returns (fn tup)) ->
  exists results p,
    run_parallel cpu_count cost fn seqs None None = (Return results, Some p) /\
    length results = length (zip seqs) /\
    (forall s, In s seqs -> length results <= length s) /\
    (exists s, In s seqs /\ length s = length results) /\
    map (@fut_args V R) (_work p) = zip seqs.
Proof.
  intros Hz Hret.
  assert (Hne : seqs <> []) by (intros ->; now apply Hz).
  assert (Hlen : 0 < length (zip seqs)).
  { destruct (zip seqs); [congruence | simpl; lia]. }
  destruct (@run_parallel_created V R py cpu_count cost fn seqs None
              (Z.of_nat (length (zip seqs))))
    as (p1 & r & p2 & _ & _ & _ & _ & Heq); [lia|].
  rewrite <- (@run_parallel_default V R py cpu_count cost fn seqs None Hne)
    in Heq.
  pose proof (run_parallel_gathers _ _ _ _ _ Heq) as Hr.
  destruct (gather_returns_all fn (zip seqs) Hret) as (rs & H2 & Hg).
  rewrite Hg in Hr. subst r.
  eexists rs, _. split; [exact Heq|].
  assert (Hrs : length rs = length (zip seqs))
    by (symmetry; exact (Forall2_length H2)).
  rewrite Hrs. split; [reflexivity|].
  split; [intros s Hs; now apply length_zip_le|].
  split; [now apply length_zip_attained|].
  destruct (run_parallel_inv _ _ _ _ _ _ Heq)
    as (_ & p1' & _ & _ & _ & Hq' & _ & _ & _ & _ & Hsame).
  transitivity (map (fun x : list V * outcome R * nat * nat =>
                       fst (fst (fst x)))
                    (map (@submitted_as V R)
                         (_work (snd (thread_pool_shutdown true false p2))))).
  - rewrite map_map. reflexivity.
  - rewrite Hsame, map_map. simpl.
    exact (proj1 (proj2 (queued_outcomes Hq'))).
Qed.

(** C7: with [max_workers] unset the pool is created with as many workers
    as there are zipped tuples, which is the length of the shortest input
    sequence; with [max_workers] set, with that value.  The pool exists
    exactly when that count is positive. *)
Theorem run_parallel_worker_count fn seqs timeout max_workers :
  (max_workers = None -> seqs <> []) ->
  let n := match max_workers with
           | None => Z.of_nat (length (zip seqs))
           | Some w => w
           end in
  run_parallel cpu_count cost fn seqs timeout max_workers =
    executor (lib := thread_pool_library V R cpu_count) (mkKwargs (Some n))
      (results <- Executor_map cost fn seqs timeout ;;
       result_iterator (fst results) (snd results)) /\
  (forall r p,
     run_parallel cpu_count cost fn seqs timeout max_workers = (r, Some p) ->
     _max_workers p = n) /\
  ((0 < n)%Z ->
   exists r p,
     run_parallel cpu_count cost fn seqs timeout max_workers = (r, Some p)) /\
  (max_workers = None ->
   (exists s, In s seqs /\ length s = length (zip seqs)) /\
   (forall s, In s seqs -> length (zip seqs) <= length s)).
Proof.
  intros Hne n.
  assert (Hsome : run_parallel cpu_count cost fn seqs timeout max_workers =
                  run_parallel cpu_count cost fn seqs timeout (Some n)).
  { subst n. destruct max_workers as [w|]; [reflexivity|].
    apply run_parallel_default. auto. }
  split; [rewrite Hsome; reflexivity|].
  split.
  { intros r p Hrun.
    destruct (run_parallel_inv _ _ _ _ _ _ Hrun)
      as (mw & _ & _ & _ & Hmw & _ & _ & _ & _ & Hm & _).
    subst n. congruence. }
  split.
  { intros Hpos. rewrite Hsome.
    destruct (@run_parallel_created V R py cpu_count cost fn seqs timeout n
                Hpos)
      as (p1 & r & p2 & _ & _ & _ & _ & Heq). eauto. }
  intros ->. split.
  - apply length_zip_attained. auto.
  - intros s Hs. now apply length_zip_le.
Qed.

(** C9: with no argument sequence at all and [max_workers] unset,
    [min] over the empty iterable raises [ValueError]; [run_parallel]
    raises it, no pool is created and no result list is returned. *)
Theorem run_parallel_no_sequences fn timeout :
  exists e,
    exc_type e = ValueError /\
    py_min (map (fun arg : list V => Z.of_nat (length arg)) []) = Raise e /\
    run_parallel cpu_count cost fn [] timeout None = (Raise e, None).
Proof.
  exists (mkExc ValueError "min() iterable argument is empty").
  repeat split.
Qed.

(** C10: with [max_workers] unset and an empty sequence among the
    arguments, the zip is empty, the computed worker count is [0], the
    pool constructor rejects it with [ValueError], and [run_parallel]
    raises it instead of returning the empty list; no pool exists, so
    [fn] is never called. *)
Theorem run_parallel_empty_sequence fn seqs timeout :
  In [] seqs ->
  zip seqs = [] /\
  py_min (map (fun arg : list V => Z.of_nat (length arg)) seqs) = Return 0%Z /\
  exists e,
    exc_type e = ValueError /\
    thread_pool_init V R cpu_count (mkKwargs (Some 0%Z)) = Raise e /\
    run_parallel cpu_count cost fn seqs timeout None = (Raise e, None).
Proof.
  intros Hin.
  assert (Hne : seqs <> []) by (intros ->; contradiction).
  assert (Hz : zip seqs = []).
  { pose proof (length_zip_le seqs [] Hin) as Hle. simpl in Hle.
    destruct (zip seqs); [reflexivity | simpl in Hle; lia]. }
  split; [exact Hz|].
  split; [rewrite (py_min_lengths Hne), Hz; reflexivity|].
  exists (mkExc ValueError "max_workers must be greater than 0").
  split; [reflexivity|]. split; [reflexivity|].
  rewrite (@run_parallel_default V R py cpu_count cost fn seqs timeout Hne), Hz.
  apply run_parallel_rejected. simpl. lia.
Qed.

End RunParallelSpec.

(* ------------------------------------------------------------------ *)
(** ** The scoped executor *)

Section ScopeGuardSpec.
Context {V R A : Type} {py : Python R}.
Variable cpu_count : nat.
Implicit Types (body : M (thread_pool V R) A) (kwargs : Kwargs).

(** C3: a scope whose pool was created ends with exactly one call of
    [shutdown].  When the block returns it is the graceful one,
    [shutdown(wait=True, cancel_futures=False)]: nothing is cancelled, the
    caller waits until every work item that was not cancelled has
    finished, and the pool is closed.  When the block raises it is the
    aborting one, [shutdown(wait=False, cancel_futures=True)]: the clock
    does not advance (no waiting), every work item that has not started
    is cancelled, those started are left alone, the pool is closed, and
    the graceful wait is never performed. *)
Theorem executor_exit_protocols kwargs body p0 :
  thread_pool_init V R cpu_count kwargs = Return p0 ->
  exists p2,
    _shutdown p2 = true /\
    match body p0 with
    | (Return a, p1) =>
        executor (lib := thread_pool_library V R cpu_count) kwargs body =
          (Return a, Some p2) /\
        shutdown_calls p2 = shutdown_calls p1 ++ [(true, false)] /\
        _work p2 = _work p1 /\
        clock p1 <= clock p2 /\
        Forall (fun f => future_state (clock p2) f = FINISHED \/
                         future_state (clock p2) f = CANCELLED) (_work p2)
    | (Raise e, p1) =>
        executor (lib := thread_pool_library V R cpu_count) kwargs body =
          (Raise e, Some p2) /\
        shutdown_calls p2 = shutdown_calls p1 ++ [(false, true)] /\
        clock p2 = clock p1 /\
        _work p2 = map (cancel_pending (clock p1)) (_work p1) /\
        Forall (fun f => future_state (clock p2) f <> PENDING) (_work p2) /\
        (forall f, In f (_work p1) -> future_state (clock p1) f <> PENDING ->
                   In f (_work p2))
    end.
Proof.
  intros Hinit. destruct (body p0) as [[a|e] p1] eqn:Hbody.
  - exists (snd (thread_pool_shutdown true false p1)).
    split; [reflexivity|].
    rewrite (executor_normal_exit (thread_pool_library V R cpu_count)
               _ _ Hinit Hbody).
    split; [reflexivity|]. split; [reflexivity|]. split; [reflexivity|].
    simpl. split; [exact (proj1 (fold_left_max_ge _ _))|].
    apply Forall_forall. intros f Hf. now apply joined_all_finished.
  - exists (snd (thread_pool_shutdown false true p1)).
    split; [reflexivity|].
    rewrite (executor_error_exit (thread_pool_library V R cpu_count)
               _ _ Hinit Hbody).
    split; [reflexivity|]. split; [reflexivity|]. split; [reflexivity|].
    simpl. split; [reflexivity|]. split.
    + apply Forall_forall. intros f Hf. apply in_map_iff in Hf as (g & <- & _).
      apply cancel_pending_not_pending.
    + intros f Hf Hst. apply in_map_iff. exists f.
      split; [now apply cancel_pending_started | exact Hf].
Qed.

(** C8: a worker count that is zero or negative makes the pool
    constructor raise [ValueError]; entering the scoped executor with it
    raises that error without creating a pool or running the block, and so
    does [run_parallel] when it is passed as [max_workers]. *)
Theorem nonpositive_worker_count_rejected (w : Z) body
    (cost : Timing) (fn : list V -> outcome R) seqs timeout :
  (w <= 0)%Z ->
  exists e,
    exc_type e = ValueError /\
    thread_pool_init V R cpu_count (mkKwargs (Some w)) = Raise e /\
    executor (lib := thread_pool_library V R cpu_count)
             (mkKwargs (Some w)) body = (Raise e, None) /\
    run_parallel cpu_count cost fn seqs timeout (Some w) = (Raise e, None).
Proof.
  intros Hw. exists (mkExc ValueError "max_workers must be greater than 0").
  assert (Hinit : thread_pool_init V R cpu_count (mkKwargs (Some w)) =
                  Raise (mkExc ValueError "max_workers must be greater than 0")).
  { unfold thread_pool_init. simpl.
    destruct (Z.leb_spec w 0); [reflexivity | lia]. }
  split; [reflexivity|]. split; [exact Hinit|]. split.
  - apply (executor_not_created (thread_pool_library V R cpu_count)).
    exact Hinit.
  - now apply run_parallel_rejected.
Qed.

End ScopeGuardSpec.

Section AbortShutdownSpec.
Context {Pool : Type} (lib : PoolLibrary Pool) {A : Type}.
Implicit Types (body : M Pool A) (kwargs : Kwargs).


End AbortShutdownSpec.

(* ------------------------------------------------------------------ *)
(** ** Concrete runs *)

(** C6: the sequences [[]] and [[1]] have unequal lengths and [fn_sum]
    never raises, yet the call does not return the empty list that zip
    truncation (and the docstring of [run_parallel]) promise: the default
    worker count is the zip length [0], which the pool constructor
    rejects with [ValueError]. *)
Theorem run_parallel_empty_shortest_raises :
  zip [[]; [1]] = [] /\
  run_parallel 4 cost_decreasing fn_sum [[]; [1]] None None =
  (Raise (mkExc ValueError "max_workers must be greater than 0"), None).
Proof. split; reflexivity. Qed.




(** *** The model at work *)

Example zip_truncates_to_shortest :
  zip [[1; 2; 3]; [10; 20]; [100; 200; 300]] = [[1; 10; 100]; [2; 20; 200]].
Proof. reflexivity. Qed.

(** The last unit finishes first; the results come in input order. *)
Example results_ignore_completion_order :
  fst (run_parallel 4 cost_decreasing fn_sum [[1; 2; 3]; [10; 20; 30]]
                    None None) = Return [Some 11; Some 22; Some 33].
Proof. reflexivity. Qed.

(** Five units of one tick each on two workers: the graceful shutdown
    returns at tick 3, and the pool saw that single shutdown call. *)
Example two_workers_queue_five_units :
  let run := run_parallel 4
               (mkTiming (fun _ => 1) (fun _ => 0) (fun _ => 0) (fun _ => 0))
               fn_sum [[1; 2; 3; 4; 5]] None (Some 2%Z) in
  fst run = Return [Some 1; Some 2; Some 3; Some 4; Some 5] /\
  option_map (fun p => map (@fut_start nat (option nat)) (_work p)) (snd run)
    = Some [0; 0; 1; 1; 2] /\
  option_map (@clock nat (option nat)) (snd run) = Some 3 /\
  option_map (@shutdown_calls nat (option nat)) (snd run)
    = Some [(true, false)].
Proof. vm_compute. repeat split. Qed.

(** The second unit fails: the caller stops waiting at tick 5, the unit
    that has not started by then is cancelled, the others are left. *)
Example failure_aborts_the_pool :
  let run := run_parallel 4 cost_decreasing fn_boom [[1; 0; 3; 4; 5]] None
                          (Some 2%Z) in
  fst run = Raise (mkExc ValueError "boom") /\
  option_map (fun p => map (future_state (clock p)) (_work p)) (snd run) =
    Some [FINISHED; FINISHED; RUNNING; RUNNING; CANCELLED] /\
  option_map (@clock nat (option nat)) (snd run) = Some 5 /\
  option_map (@shutdown_calls nat (option nat)) (snd run)
    = Some [(false, true)].
Proof. vm_compute. repeat split. Qed.

(** An exception object whose truth value is false is not raised by
    [Future.result]: [None] takes the place of that call's result and the
    call of [run_parallel] returns. *)
Example falsy_exception_yields_none :
  fn_falsy [0] = Raise (mkExc (UserError "Quiet" false false) "") /\
  fst (run_parallel 4 cost_decreasing fn_falsy [[1; 0; 3]] None None) =
    Return [Some 1; None; Some 3].
Proof. split; reflexivity. Qed.

(** Submitting takes time after the deadline was fixed: both units
    finish after the deadline of 3 ticks (at ticks 5 and 15), but before
    the caller, busy submitting until tick 20, comes to collect them;
    finished futures are returned without looking at the deadline. *)
Example late_units_found_finished :
  let run := run_parallel 4 cost_slow_submit fn_sum [[1; 2]]
                          (Some (Finite 3)) None in
  fst run = Return [Some 1; Some 2] /\
  option_map (fun p => map (@fut_finish nat (option nat)) (_work p)) (snd run)
    = Some [5; 15] /\
  option_map (@clock nat (option nat)) (snd run) = Some 20.
Proof. vm_compute. repeat split. Qed.

(** A timeout that the platform cannot wait for raises [OverflowError]
    as soon as a result has to be waited for. *)
Example infinite_timeout_overflows :
  fst (run_parallel 4 cost_decreasing fn_sum [[1; 2]] (Some Infinite) None) =
    Raise (mkExc OverflowError "timeout value is too large").
Proof. reflexivity. Qed.

(** Workers pick units up lazily: with one worker needing two ticks per
    pick-up, the first unit fails at tick 3, before the others were
    started; they are cancelled and [fn] is never run on them. *)
Example units_cancelled_before_start :
  let run := run_parallel 4 cost_slow_pickup fn_boom [[0; 2; 3]] None
                          (Some 1%Z) in
  fst run = Raise (mkExc ValueError "boom") /\
  option_map (fun p => map (future_state (clock p)) (_work p)) (snd run) =
    Some [FINISHED; CANCELLED; CANCELLED] /\
  option_map (@clock nat (option nat)) (snd run) = Some 3.
Proof. vm_compute. repeat split. Qed.

(** *** Instances of the theorems above *)

Lemma run_parallel_results_in_input_order_witness :
  (exists s, In s [[1; 2; 3]; [10; 20; 30]] /\ s <> []) /\
  Forall (fun s => length s = 3) [[1; 2; 3]; [10; 20; 30]] /\
  (forall tup, In tup (zip [[1; 2; 3]; [10; 20; 30]]) ->
               returns (fn_sum tup)) /\
  exists results,
    fst (run_parallel 4 cost_decreasing fn_sum [[1; 2; 3]; [10; 20; 30]]
                      None None) = Return results /\
    length results = 3 /\
    forall i d, i < 3 ->
      exists r, nth_error results i = Some r /\
                fn_sum (map (fun s => nth i s d) [[1; 2; 3]; [10; 20; 30]])
                = Return r.
Proof.
  assert (H1 : exists s, In s [[1; 2; 3]; [10; 20; 30]] /\ s <> []).
  { exists [1; 2; 3]. split; [left; reflexivity | discriminate]. }
  assert (H2 : Forall (fun s => length s = 3) [[1; 2; 3]; [10; 20; 30]]).
  { repeat constructor. }
  assert (H3 : forall tup, In tup (zip [[1; 2; 3]; [10; 20; 30]]) ->
                           returns (fn_sum tup)).
  { intros tup _. exists (Some (fold_left Nat.add tup 0)). reflexivity. }
  split; [exact H1|]. split; [exact H2|]. split; [exact H3|].
  exact (@run_parallel_results_in_input_order nat (option nat) _ 4
           cost_decreasing fn_sum _ 3 H1 H2 H3).
Defined.



Lemma run_parallel_worker_count_witness :
  (@None Z = None -> [[1; 2; 3]; [10; 20]] <> []) /\
  run_parallel 4 cost_decreasing fn_sum [[1; 2; 3]; [10; 20]] None None =
    executor (lib := thread_pool_library nat (option nat) 4)
      (mkKwargs (Some 2%Z))
      (results <- Executor_map cost_decreasing fn_sum
                    [[1; 2; 3]; [10; 20]] None ;;
       result_iterator (fst results) (snd results)) /\
  forall r p,
    run_parallel 4 cost_decreasing fn_sum [[1; 2; 3]; [10; 20]] None None
      = (r, Some p) ->
    _max_workers p = 2%Z.
Proof.
  assert (H1 : @None Z = None -> [[1; 2; 3]; [10; 20]] <> [])
    by (intros _; discriminate).
  split; [exact H1|].
  pose proof (@run_parallel_worker_count nat (option nat) _ 4 cost_decreasing
                fn_sum [[1; 2; 3]; [10; 20]] None None H1) as H.
  split; [exact (proj1 H) | exact (proj1 (proj2 H))].
Defined.

Lemma run_parallel_empty_sequence_witness :
  In [] [[]; [1]] /\
  zip [[]; [1]] = [] /\
  exists e,
    exc_type e = ValueError /\
    run_parallel 4 cost_decreasing fn_sum [[]; [1]] None None = (Raise e, None).
Proof.
  assert (H1 : In [] [[]; [1]]) by (left; reflexivity).
  split; [exact H1|].
  destruct (@run_parallel_empty_sequence nat (option nat) _ 4 cost_decreasing
              fn_sum [[]; [1]] None H1) as (Hz & _ & e & He & _ & Hrun).
  split; [exact Hz|]. exists e. split; [exact He | exact Hrun].
Defined.

Lemma executor_exit_protocols_witness :
  let p0 := mkPool (V := nat) (R := option nat) 1 [0] [] false 0 [] in
  thread_pool_init nat (option nat) 4 (mkKwargs (Some 1%Z)) = Return p0 /\
  exists p2,
    executor (lib := thread_pool_library nat (option nat) 4)
             (mkKwargs (Some 1%Z))
             block_failing = (Raise (mkExc ValueError "boom"), Some p2) /\
    shutdown_calls p2 = [(false, true)] /\
    clock p2 = 0 /\
    map (@fut_cancelled nat (option nat)) (_work p2) = [false; true].
Proof.
  intros p0.
  assert (H1 : thread_pool_init nat (option nat) 4 (mkKwargs (Some 1%Z))
               = Return p0)
    by reflexivity.
  split; [exact H1|].
  destruct (@executor_exit_protocols nat (option nat) nat 4
              (mkKwargs (Some 1%Z)) block_failing p0 H1) as (p2 & _ & H).
  change (block_failing p0) with
    (@Raise nat (mkExc ValueError "boom"),
     mkPool 1 [101]
       [mkFuture [1; 2] (Return (Some 3)) 0 1 0 false;
        mkFuture [3; 4] (Return (Some 7)) 1 100 0 false] false 0 []) in H.
  destruct H as (Hex & Hcalls & Hclock & Hwork & _).
  exists p2. split; [exact Hex|]. split; [exact Hcalls|].
  split; [exact Hclock|]. rewrite Hwork. reflexivity.
Defined.

Lemma nonpositive_worker_count_rejected_witness :
  (0 <= 0)%Z /\
  exists e,
    exc_type e = ValueError /\
    executor (lib := thread_pool_library nat (option nat) 4)
             (mkKwargs (Some 0%Z))
             block_failing = (Raise e, None) /\
    run_parallel 4 cost_decreasing fn_sum [[1; 2]] None (Some 0%Z)
      = (Raise e, None).
Proof.
  assert (H1 : (0 <= 0)%Z) by lia.
  split; [exact H1|].
  destruct (@nonpositive_worker_count_rejected nat (option nat) nat _ 4 0%Z
              block_failing cost_decreasing fn_sum [[1; 2]] None H1)
    as (e & He & _ & Hex & Hrun).
  exists e. split; [exact He|]. split; [exact Hex | exact Hrun].
Defined.


(* ------------------------------------------------------------------ *)
(** ** More about the parallel map *)

Section RunParallelMore.
Context {V R : Type} {py : Python R}.
Variable cpu_count : nat.
Variable cost : Timing.
Implicit Types (fn : list V -> outcome R) (seqs : list (list V))
  (p : thread_pool V R).

(** X1: without a timeout, with a worker count that the pool accepts
    (any positive [max_workers], or the default when the zip is not
    empty), and when every exception that [fn] raises on a zipped tuple
    is an ordinary one (its truth value is true and it is no
    [StopIteration]), [run_parallel] returns or raises exactly what the
    list comprehension of its docstring does, whatever the worker count
    and the timing of the units. *)
Theorem run_parallel_is_list_comprehension fn seqs max_workers :
  match max_workers with
  | None => zip seqs <> []
  | Some w => (0 < w)%Z
  end ->
  (forall tup e, In tup (zip seqs) -> fn tup = Raise e -> ordinary e) ->
  fst (run_parallel cpu_count cost fn seqs None max_workers) =
  list_comprehension fn (zip seqs).
Proof.
  intros Hok Hord.
  assert (Hrun : exists mw, (0 < mw)%Z /\
            run_parallel cpu_count cost fn seqs None max_workers =
            run_parallel cpu_count cost fn seqs None (Some mw)).
  { destruct max_workers as [w|]; [eauto|].
    assert (Hne : seqs <> []) by (intros ->; now apply Hok).
    exists (Z.of_nat (length (zip seqs))). split.
    - destruct (zip seqs); [congruence | simpl; lia].
    - now apply run_parallel_default. }
  destruct Hrun as (mw & Hmw & ->).
  destruct (@run_parallel_created V R py cpu_count cost fn seqs None mw Hmw)
    as (p1 & r & p2 & _ & _ & _ & _ & Heq).
  rewrite (run_parallel_gathers _ _ _ _ _ Heq) in Heq.
  rewrite Heq. simpl fst. now apply gather_ordinary.
Qed.

(** X2: without a timeout, whatever the worker count and the timing,
    what a call that created its pool returns or raises is decided by
    going through the outcomes of [fn] on the zipped tuples in input
    order: a returned value is kept, an exception whose truth value is
    false leaves [None] in its place, and the first other exception ends
    the call, raised as it is unless it is a [StopIteration], which
    becomes [RuntimeError]; with no such exception the list is
    returned. *)
Theorem run_parallel_outcome_scan fn seqs max_workers r p :
  run_parallel cpu_count cost fn seqs None max_workers = (r, Some p) ->
  r = gather (map fn (zip seqs)).
Proof. intros Hrun. exact (run_parallel_gathers _ _ _ _ _ Hrun). Qed.

(** X3: a finite timeout that the platform can wait for and that no
    unit of work exceeds changes nothing: the call returns or raises
    what it does without a timeout. *)
Theorem run_parallel_timeout_not_exceeded fn seqs t max_workers r p :
  run_parallel cpu_count cost fn seqs (Some (Finite t)) max_workers
    = (r, Some p) ->
  t <= TIMEOUT_MAX ->
  Forall (fun f => fut_finish f <= t) (_work p) ->
  r = gather (map fn (zip seqs)).
Proof.
  intros Hrun Hmax Hall.
  destruct (run_parallel_inv _ _ _ _ _ _ Hrun)
    as (mw & p1 & p2 & _ & _ & Hq & _ & Hit & _ & _ & Hsame).
  destruct (queued_outcomes Hq) as (Ho & _ & Hlive).
  pose proof (@result_iterator_gather V R py (_work p1) []
                (option_map (deadline 0) (Some (Finite t))) p1 eq_refl Hlive)
    as Hg.
  simpl length in Hg. rewrite Hit in Hg. simpl fst in Hg.
  rewrite Hg, Ho; [reflexivity|].
  intros f c Hin _. unfold at_hand. simpl. right. split; [|lia].
  apply (in_map (@submitted_as V R)) in Hin. rewrite <- Hsame in Hin.
  apply in_map_iff in Hin as (f' & Hs & Hin').
  rewrite Forall_forall in Hall. specialize (Hall f' Hin').
  unfold submitted_as in Hs. injection Hs as _ _ Hst Hco.
  unfold fut_finish in *. lia.
Qed.

(** X4: every zipped tuple is submitted, once and in input order, before
    any result is waited for: whatever the call returns or raises, the
    queue of the pool holds one work item per tuple, also for the tuples
    after a failing or late one. *)
Theorem run_parallel_submits_every_tuple fn seqs timeout max_workers r p :
  run_parallel cpu_count cost fn seqs timeout max_workers = (r, Some p) ->
  map (@fut_args V R) (_work p) = zip seqs /\
  map (@fut_outcome V R) (_work p) = map fn (zip seqs).
Proof.
  intros Hrun.
  destruct (run_parallel_inv _ _ _ _ _ _ Hrun)
    as (mw & p1 & p2 & _ & _ & Hq & _ & _ & _ & _ & Hsame).
  assert (Hargs : map (@fut_args V R) (_work p) =
                  map (@fut_args V R) (_work p1)).
  { transitivity (map (fun x : list V * outcome R * nat * nat =>
                         fst (fst (fst x)))
                      (map (@submitted_as V R) (_work p))).
    - rewrite map_map. reflexivity.
    - rewrite Hsame, map_map. reflexivity. }
  assert (Hout : map (@fut_outcome V R) (_work p) =
                 map (@fut_outcome V R) (_work p1)).
  { transitivity (map (fun x : list V * outcome R * nat * nat =>
                         snd (fst (fst x)))
                      (map (@submitted_as V R) (_work p))).
    - rewrite map_map. reflexivity.
    - rewrite Hsame, map_map. reflexivity. }
  rewrite Hargs, Hout.
  destruct (queued_outcomes Hq) as (Ho & Ha & _). split; assumption.
Qed.

(** X5: a call that returns leaves a pool that was shut down once, the
    graceful way, with every unit of work finished and none cancelled. *)
Theorem run_parallel_success_drains_pool fn seqs timeout max_workers rs p :
  run_parallel cpu_count cost fn seqs timeout max_workers
    = (Return rs, Some p) ->
  shutdown_calls p = [(true, false)] /\ _shutdown p = true /\
  Forall (fun f => future_state (clock p) f = FINISHED) (_work p).
Proof.
  intros Hrun.
  destruct (run_parallel_inv _ _ _ _ _ _ Hrun)
    as (mw & p1 & p2 & _ & _ & Hq & Hl & Hit & -> & _ & _).
  pose proof (result_iterator_frame (seq 0 (length (_work p1)))
                (option_map (deadline 0) timeout) p1) as (F1 & _).
  rewrite Hit in F1. simpl in F1.
  apply result_iterator_returns in Hit as [Hw Hall].
  simpl. rewrite F1, Hl. repeat split.
  rewrite Hw. apply Forall_forall. intros f Hf.
  apply In_nth_error in Hf as [k Hk].
  assert (Hlt : k < length (_work p1)) by (apply nth_error_Some; congruence).
  rewrite Forall_forall in Hall.
  destruct (Hall k) as (f' & Hk' & Hlive & Hfin); [apply in_seq; lia|].
  rewrite Hk in Hk'. injection Hk' as <-.
  set (t := fold_left Nat.max _ (clock p2)).
  assert (Ht : clock p2 <= t) by exact (proj1 (fold_left_max_ge _ _)).
  unfold future_state. rewrite Hlive.
  destruct (Nat.ltb_spec t (fut_start f));
    [unfold fut_finish in Hfin; lia|].
  destruct (Nat.ltb_spec t (fut_finish f)); [lia | reflexivity].
Qed.

(** X6: a call that raises after the pool was created leaves a pool that
    was shut down once, the aborting way: no unit of work is left
    waiting to start, each one is finished, running or cancelled. *)
Theorem run_parallel_failure_aborts_pool fn seqs timeout max_workers e p :
  run_parallel cpu_count cost fn seqs timeout max_workers
    = (Raise e, Some p) ->
  shutdown_calls p = [(false, true)] /\ _shutdown p = true /\
  Forall (fun f => future_state (clock p) f <> PENDING) (_work p).
Proof.
  intros Hrun.
  destruct (run_parallel_inv _ _ _ _ _ _ Hrun)
    as (mw & p1 & p2 & _ & _ & Hq & Hl & Hit & -> & _ & _).
  pose proof (result_iterator_frame (seq 0 (length (_work p1)))
                (option_map (deadline 0) timeout) p1) as (F1 & _).
  rewrite Hit in F1. simpl in F1.
  simpl. rewrite F1, Hl. repeat split.
  apply Forall_forall. intros f Hf. apply in_map_iff in Hf as (g & <- & _).
  apply cancel_pending_not_pending.
Qed.

(** X8: with a positive [max_workers] given, an empty zip (no sequence at
    all, or an empty one among them) is no error: the call returns the
    empty list, having created a pool, queued nothing and shut the pool
    down gracefully.  The [ValueError] on empty input belongs to the
    default worker count only. *)
Theorem run_parallel_empty_with_workers fn seqs timeout (w : Z) :
  (0 < w)%Z -> zip seqs = [] ->
  run_parallel cpu_count cost fn seqs timeout (Some w) =
  (Return [],
   Some (mkPool w (repeat 0 (Z.to_nat w)) [] true 0 [(true, false)])).
Proof.
  intros Hw Hz.
  pose (p0 := mkPool (V:=V) (R:=R) w (repeat 0 (Z.to_nat w)) [] false 0 []).
  assert (Hinit : thread_pool_init V R cpu_count (mkKwargs (Some w))
                  = Return p0).
  { unfold thread_pool_init. simpl.
    destruct (Z.leb_spec w 0); [lia | reflexivity]. }
  assert (Hbody :
    (results <- Executor_map cost fn seqs timeout ;;
     result_iterator (fst results) (snd results)) p0 = (Return [], p0)).
  { unfold Executor_map, bind, monotonic. rewrite Hz. reflexivity. }
  unfold run_parallel.
  rewrite (executor_normal_exit (thread_pool_library V R cpu_count)
             _ _ Hinit Hbody).
  reflexivity.
Qed.

(** X11: whatever the timeout and the worker count, a list that
    [run_parallel] returns is never partial: it has one element per
    zipped tuple, in input order, each the value [fn] returned on that
    tuple, or [None] where [fn] raised an exception whose truth value
    is false. *)
Theorem run_parallel_returns_complete_results
    fn seqs timeout max_workers rs p :
  run_parallel cpu_count cost fn seqs timeout max_workers
    = (Return rs, Some p) ->
  Forall2 (fun tup r =>
             fn tup = Return r \/
             exists e, fn tup = Raise e /\ exc_bool e = false /\ r = py_None)
          (zip seqs) rs.
Proof.
  intros Hrun.
  destruct (run_parallel_inv _ _ _ _ _ _ Hrun)
    as (mw & p1 & p2 & _ & _ & Hq & _ & Hit & _).
  pose proof (@result_iterator_values V R py (_work p1) [] _ p1 rs p2
                eq_refl Hit) as Hv.
  clear - Hq Hv. revert rs Hv.
  induction Hq as [|tup f tups futs (_ & Ho & _) _ IH]; intros rs Hv;
    inversion Hv as [|f' r futs' rs' Hr Hrest]; subst; constructor;
    [|now apply IH].
  rewrite Ho in Hr. unfold get_result in Hr.
  destruct (fn tup) as [r0|e]; [left; exact Hr|].
  destruct (exc_bool e) eqn:Hb; [discriminate|].
  injection Hr as <-. right. exists e. auto.
Qed.

End RunParallelMore.

(* ------------------------------------------------------------------ *)
(** ** More about the scoped executor *)

Section ScopeGuardMore.
Context {V R A : Type}.
Variable cpu_count : nat.
Variable cost : Timing.
Implicit Types (body : M (thread_pool V R) A) (kwargs : Kwargs).

(** X10: however the block ends, the pool that the scope leaves is
    closed for good: submitting to it afterwards raises [RuntimeError]
    and queues nothing. *)
Theorem executor_leaves_pool_closed kwargs body r p
    (fn : list V -> outcome R) (args : list V) :
  executor (lib := thread_pool_library V R cpu_count) kwargs body
    = (r, Some p) ->
  submit cost fn args p =
  (Raise (mkExc RuntimeError "cannot schedule new futures after shutdown"), p).
Proof.
  intros H.
  destruct (thread_pool_init V R cpu_count kwargs) as [p0|e] eqn:Hinit.
  2:{ rewrite (executor_not_created (thread_pool_library V R cpu_count)
                 _ _ Hinit) in H. discriminate. }
  destruct (body p0) as [[a|e] p1] eqn:Hbody.
  - rewrite (executor_normal_exit (thread_pool_library V R cpu_count)
               _ _ Hinit Hbody) in H.
    simpl in H. injection H as _ <-. reflexivity.
  - rewrite (executor_error_exit (thread_pool_library V R cpu_count)
               _ _ Hinit Hbody) in H.
    simpl in H. injection H as _ <-. reflexivity.
Qed.

End ScopeGuardMore.

(* ------------------------------------------------------------------ *)
(** ** Instances of the further theorems *)

Lemma run_parallel_is_list_comprehension_witness :
  (0 < 2)%Z /\
  (forall tup e, In tup (zip [[1; 0; 3]]) -> fn_boom tup = Raise e ->
                 ordinary e) /\
  fst (run_parallel 4 cost_decreasing fn_boom [[1; 0; 3]] None (Some 2%Z)) =
  list_comprehension fn_boom (zip [[1; 0; 3]]).
Proof.
  assert (H1 : (0 < 2)%Z) by lia.
  assert (H2 : forall tup e, In tup (zip [[1; 0; 3]]) ->
                             fn_boom tup = Raise e -> ordinary e).
  { intros tup e _ H. unfold fn_boom in H.
    destruct tup as [|[|n] t]; try discriminate H.
    injection H as <-. split; reflexivity. }
  split; [exact H1|]. split; [exact H2|].
  exact (@run_parallel_is_list_comprehension nat (option nat) _ 4
           cost_decreasing fn_boom [[1; 0; 3]] (Some 2%Z) H1 H2).
Defined.

Lemma run_parallel_outcome_scan_witness :
  run_parallel 4 cost_decreasing fn_falsy [[1; 0; 3]] None None =
    (Return [Some 1; None; Some 3], Some pool_after_quiet) /\
  Return [Some 1; None; Some 3] = gather (map fn_falsy (zip [[1; 0; 3]])).
Proof.
  assert (H1 : run_parallel 4 cost_decreasing fn_falsy [[1; 0; 3]] None None =
               (Return [Some 1; None; Some 3], Some pool_after_quiet))
    by reflexivity.
  split; [exact H1|].
  exact (@run_parallel_outcome_scan nat (option nat) _ 4 cost_decreasing
           fn_falsy [[1; 0; 3]] None _ _ H1).
Defined.

Lemma run_parallel_timeout_not_exceeded_witness :
  run_parallel 4 cost_decreasing fn_sum [[1; 2; 3]; [10; 20; 30]]
               (Some (Finite 9)) None =
    (Return [Some 11; Some 22; Some 33], Some pool_after_success) /\
  9 <= TIMEOUT_MAX /\
  Forall (fun f => fut_finish f <= 9) (_work pool_after_success) /\
  Return [Some 11; Some 22; Some 33] =
    gather (map fn_sum (zip [[1; 2; 3]; [10; 20; 30]])).
Proof.
  assert (H1 : run_parallel 4 cost_decreasing fn_sum
                 [[1; 2; 3]; [10; 20; 30]] (Some (Finite 9)) None =
               (Return [Some 11; Some 22; Some 33], Some pool_after_success))
    by reflexivity.
  assert (H0 : 9 <= TIMEOUT_MAX) by (vm_compute; lia).
  assert (H2 : Forall (fun f => fut_finish f <= 9) (_work pool_after_success)).
  { repeat constructor; vm_compute; lia. }
  split; [exact H1|]. split; [exact H0|]. split; [exact H2|].
  exact (@run_parallel_timeout_not_exceeded nat (option nat) _ 4
           cost_decreasing fn_sum [[1; 2; 3]; [10; 20; 30]] 9 None _ _
           H1 H0 H2).
Defined.

Lemma run_parallel_submits_every_tuple_witness :
  run_parallel 4 cost_first_fast fn_boom [[0; 2]] (Some (Finite 3)) None =
    (Raise (mkExc ValueError "boom"), Some pool_after_failure) /\
  map (@fut_args nat (option nat)) (_work pool_after_failure) = zip [[0; 2]] /\
  map (@fut_outcome nat (option nat)) (_work pool_after_failure) =
    map fn_boom (zip [[0; 2]]).
Proof.
  assert (H1 : run_parallel 4 cost_first_fast fn_boom [[0; 2]]
                 (Some (Finite 3)) None =
               (Raise (mkExc ValueError "boom"), Some pool_after_failure))
    by reflexivity.
  split; [exact H1|].
  exact (@run_parallel_submits_every_tuple nat (option nat) _ 4
           cost_first_fast fn_boom [[0; 2]] (Some (Finite 3)) None _ _ H1).
Defined.

Lemma run_parallel_success_drains_pool_witness :
  run_parallel 4 cost_decreasing fn_sum [[1; 2; 3]; [10; 20; 30]] None None =
    (Return [Some 11; Some 22; Some 33], Some pool_after_success) /\
  shutdown_calls pool_after_success = [(true, false)] /\
  _shutdown pool_after_success = true /\
  Forall (fun f => future_state (clock pool_after_success) f = FINISHED)
         (_work pool_after_success).
Proof.
  assert (H1 : run_parallel 4 cost_decreasing fn_sum
                 [[1; 2; 3]; [10; 20; 30]] None None =
               (Return [Some 11; Some 22; Some 33], Some pool_after_success))
    by reflexivity.
  split; [exact H1|].
  exact (@run_parallel_success_drains_pool nat (option nat) _ 4
           cost_decreasing fn_sum [[1; 2; 3]; [10; 20; 30]] None None _ _ H1).
Defined.

Lemma run_parallel_failure_aborts_pool_witness :
  run_parallel 4 cost_first_fast fn_boom [[0; 2]] (Some (Finite 3)) None =
    (Raise (mkExc ValueError "boom"), Some pool_after_failure) /\
  shutdown_calls pool_after_failure = [(false, true)] /\
  _shutdown pool_after_failure = true /\
  Forall (fun f => future_state (clock pool_after_failure) f <> PENDING)
         (_work pool_after_failure).
Proof.
  assert (H1 : run_parallel 4 cost_first_fast fn_boom [[0; 2]]
                 (Some (Finite 3)) None =
               (Raise (mkExc ValueError "boom"), Some pool_after_failure))
    by reflexivity.
  split; [exact H1|].
  exact (@run_parallel_failure_aborts_pool nat (option nat) _ 4
           cost_first_fast fn_boom [[0; 2]] (Some (Finite 3)) None _ _ H1).
Defined.

Lemma run_parallel_empty_with_workers_witness :
  (0 < 2)%Z /\ zip [[]; [1]] = [] /\
  run_parallel 4 cost_decreasing fn_sum [[]; [1]] None (Some 2%Z) =
  (Return [],
   Some (mkPool 2 (repeat 0 (Z.to_nat 2)) [] true 0 [(true, false)])).
Proof.
  assert (H1 : (0 < 2)%Z) by lia.
  assert (H2 : zip [[]; [1]] = []) by reflexivity.
  split; [exact H1|]. split; [exact H2|].
  exact (@run_parallel_empty_with_workers nat (option nat) _ 4
           cost_decreasing fn_sum [[]; [1]] None 2%Z H1 H2).
Defined.

Lemma executor_leaves_pool_closed_witness :
  executor (lib := thread_pool_library nat (option nat) 4)
           (mkKwargs (Some 1%Z)) block_failing =
    (Raise (mkExc ValueError "boom"), Some pool_after_block_failing) /\
  submit cost_decreasing fn_sum [5; 6] pool_after_block_failing =
    (Raise (mkExc RuntimeError "cannot schedule new futures after shutdown"),
     pool_after_block_failing).
Proof.
  assert (H1 : executor (lib := thread_pool_library nat (option nat) 4)
                        (mkKwargs (Some 1%Z)) block_failing =
               (Raise (mkExc ValueError "boom"),
                Some pool_after_block_failing)) by reflexivity.
  split; [exact H1|].
  exact (@executor_leaves_pool_closed nat (option nat) nat 4 cost_decreasing
           (mkKwargs (Some 1%Z)) block_failing _ _ fn_sum [5; 6] H1).
Defined.

Lemma run_parallel_returns_complete_results_witness :
  run_parallel 4 cost_decreasing fn_falsy [[1; 0; 3]]
               (Some (Finite 9)) None =
    (Return [Some 1; None; Some 3], Some pool_after_quiet) /\
  Forall2 (fun tup r =>
             fn_falsy tup = Return r \/
             exists e, fn_falsy tup = Raise e /\ exc_bool e = false /\
                       r = py_None)
          (zip [[1; 0; 3]]) [Some 1; None; Some 3].
Proof.
  assert (H1 : run_parallel 4 cost_decreasing fn_falsy [[1; 0; 3]]
                 (Some (Finite 9)) None =
               (Return [Some 1; None; Some 3], Some pool_after_quiet))
    by reflexivity.
  split; [exact H1|].
  exact (@run_parallel_returns_complete_results nat (option nat) _ 4
           cost_decreasing fn_falsy [[1; 0; 3]] (Some (Finite 9)) None _ _ H1).
Defined.
